(** * XDR on a stdio stream (src/xdr_stdio.c): model and properties

    The program is a set of small C functions that read and write
    a [FILE *] through the C library (fread, fwrite, fflush, ftell,
    fseek) and convert a [long] between host and network byte order.
    The model below is a shallow embedding with explicit state passing:
    the state is the caller's XDR handle, libc's table of open streams
    and the sequence of libc calls issued so far.  What the C source
    leaves to the platform (byte order and width of [long]) is a
    parameter, [host]. *)

From Stdlib Require Import ZArith Lia.
From Stdlib.Strings Require Import Byte.
From stdpp Require Import base option list gmap.

Local Open Scope Z_scope.

(** ** Bytes *)

Definition byte_to_Z (b : byte) : Z := Z.of_N (Byte.to_N b).

Definition Z_to_byte (z : Z) : byte :=
  default x00 (Byte.of_N (Z.to_N (z mod 256))).

(** ** Unsigned integers as byte sequences *)

Fixpoint le_encode (n : nat) (v : Z) : list byte :=
  match n with
  | O => []
  | S n' => Z_to_byte v :: le_encode n' (v / 256)
  end.

Fixpoint le_decode (bs : list byte) : Z :=
  match bs with
  | [] => 0
  | b :: bs' => byte_to_Z b + 256 * le_decode bs'
  end.

Definition be_encode (n : nat) (v : Z) : list byte := rev (le_encode n v).
Definition be_decode (bs : list byte) : Z := le_decode (rev bs).

(** ** The host: what the C source leaves to the platform *)

Inductive endianness := LittleEndian | BigEndian.
Inductive long_width := LONG32 | LONG64.

Record host := mkHost { h_endian : endianness; h_long : long_width }.

Definition sizeof_long (H : host) : nat :=
  match h_long H with LONG32 => 4%nat | LONG64 => 8%nat end.

Definition long_bits (H : host) : Z := 8 * Z.of_nat (sizeof_long H).
Definition LONG_MAX (H : host) : Z := 2 ^ (long_bits H - 1) - 1.
Definition LONG_MIN (H : host) : Z := - 2 ^ (long_bits H - 1).

(** sizeof(int32_t) *)
Definition sizeof_int32_t : Z := 4.

Definition INT32_MIN : Z := - 2 ^ 31.
Definition INT32_MAX : Z := 2 ^ 31 - 1.

Definition host_encode (H : host) (n : nat) (v : Z) : list byte :=
  match h_endian H with
  | LittleEndian => le_encode n v
  | BigEndian => be_encode n v
  end.

Definition host_decode (H : host) (bs : list byte) : Z :=
  match h_endian H with
  | LittleEndian => le_decode bs
  | BigEndian => be_decode bs
  end.

(** Two's complement value of the low [bits] bits of [v]. *)
Definition wrap_signed (bits v : Z) : Z :=
  let u := v mod 2 ^ bits in
  if u <? 2 ^ (bits - 1) then u else u - 2 ^ bits.

(** The C conversions the source writes as casts.  [u_int] and
    [u_int32_t] are 32 bits wide on every host considered; a conversion
    to an unsigned type reduces modulo 2^32, and a conversion to [long]
    of a value that does not fit (implementation-defined in C) wraps. *)
Definition cast_u_int32_t (v : Z) : Z := v mod 2 ^ 32.
Definition cast_u_int (v : Z) : Z := v mod 2 ^ 32.
Definition cast_long (H : host) (v : Z) : Z := wrap_signed (long_bits H) v.

(** The object representation of a [long]: the bytes at [&x], and the
    value of the [long] whose storage starts with the given bytes. *)
Definition store_long (H : host) (v : Z) : list byte :=
  host_encode H (sizeof_long H) v.

Definition load_long (H : host) (mem : list byte) : Z :=
  wrap_signed (long_bits H) (host_decode H (take (sizeof_long H) mem)).

(** <arpa/inet.h>: [htonl] maps a host 32-bit value to the value whose
    host representation is the big-endian representation of the
    argument; [ntohl] is its inverse. *)
Definition htonl (H : host) (hostlong : Z) : Z :=
  host_decode H (be_encode 4 hostlong).

Definition ntohl (H : host) (netlong : Z) : Z :=
  be_decode (host_encode H 4 netlong).

(** ** The C library's buffered streams, <stdio.h>

    fread, fwrite, fflush, ftell and fseek are the platform's, not this
    repository's.  They are modelled after ISO C and POSIX on a regular
    file whose device accepts every write: a stream has a position,
    the contents seen through the stream ([f_view], the file with the
    buffered output applied) and the contents of the underlying file
    ([f_disk]); fflush and fseek carry the first over to the second.
    A stream is open as long as libc's table holds it. *)

(** A C pointer: NULL or an address. *)
Definition ptr : Type := option positive.
Definition NULL : ptr := None.

Record FILE := mkFILE {
  f_readable : bool;
  f_writable : bool;
  f_view : list byte;
  f_disk : list byte;
  f_pos : Z;
  f_eof : bool;
  f_err : bool
}.

Inductive io_call :=
| io_fread (fp : ptr) (size nmemb : Z)
| io_fwrite (fp : ptr) (size nmemb : Z)
| io_fflush (fp : ptr)
| io_ftell (fp : ptr)
| io_fseek (fp : ptr) (offset whence : Z).

Record stdio := mkStdio {
  io_files : gmap positive FILE;
  io_trace : list io_call
}.

Definition io_log (c : io_call) (io : stdio) : stdio :=
  mkStdio (io_files io) (io_trace io ++ [c]).

Definition io_set (a : positive) (f : FILE) (io : stdio) : stdio :=
  mkStdio (<[a := f]> (io_files io)) (io_trace io).

Definition io_file (fp : ptr) (io : stdio) : option FILE :=
  match fp with
  | Some a => io_files io !! a
  | None => None
  end.

Definition file_fail (f : FILE) : FILE :=
  mkFILE (f_readable f) (f_writable f) (f_view f) (f_disk f) (f_pos f)
         (f_eof f) true.

Definition file_sync (f : FILE) : FILE :=
  mkFILE (f_readable f) (f_writable f) (f_view f) (f_view f) (f_pos f)
         (f_eof f) (f_err f).

(** The bytes between the position and the end of the stream. *)
Definition file_rest (f : FILE) : list byte :=
  drop (Z.to_nat (f_pos f)) (f_view f).

(** [data] written over [old] at offset [pos]; a gap reads as zeros. *)
Definition overwrite (old : list byte) (pos : nat) (data : list byte)
  : list byte :=
  take pos (old ++ replicate (pos - length old) x00)
    ++ data ++ drop (pos + length data) old.

(** The stream after [n] of the [want] bytes asked for have been read. *)
Definition file_after_read (f : FILE) (n want : nat) : FILE :=
  mkFILE (f_readable f) (f_writable f) (f_view f) (f_disk f)
         (f_pos f + Z.of_nat n) (f_eof f || (n <? want)%nat) (f_err f).

(** The stream after [data] has been written to it. *)
Definition file_after_write (f : FILE) (data : list byte) : FILE :=
  mkFILE (f_readable f) (f_writable f)
         (overwrite (f_view f) (Z.to_nat (f_pos f)) data) (f_disk f)
         (f_pos f + Z.of_nat (length data)) (f_eof f) (f_err f).

(** The stream after a seek to offset [t]. *)
Definition file_after_seek (f : FILE) (t : Z) : FILE :=
  mkFILE (f_readable f) (f_writable f) (f_view f) (f_view f) t false
         (f_err f).

(** [fread(buf, size, nmemb, fp)]: the number of whole items read, and
    [buf] with the bytes read (also those of a partial item) stored at
    its start. *)
Definition fread (buf : list byte) (size nmemb : Z) (fp : ptr) (io : stdio)
  : Z * list byte * stdio :=
  let io' := io_log (io_fread fp size nmemb) io in
  match fp with
  | Some a =>
      match io_files io !! a with
      | Some f =>
          if f_readable f then
            let want := Z.to_nat (size * nmemb) in
            let got := take want (file_rest f) in
            (if size =? 0 then 0 else Z.of_nat (length got) / size,
             got ++ drop (length got) buf,
             io_set a (file_after_read f (length got) want) io')
          else (0, buf, io_set a (file_fail f) io')
      | None => (0, buf, io')
      end
  | None => (0, buf, io')
  end.

(** [fwrite(buf, size, nmemb, fp)]: the number of whole items written. *)
Definition fwrite (buf : list byte) (size nmemb : Z) (fp : ptr) (io : stdio)
  : Z * stdio :=
  let io' := io_log (io_fwrite fp size nmemb) io in
  match fp with
  | Some a =>
      match io_files io !! a with
      | Some f =>
          if f_writable f then
            if size * nmemb <=? 0 then (0, io')
            else
              let data := take (Z.to_nat (size * nmemb)) buf in
              (Z.of_nat (length data) / size,
               io_set a (file_after_write f data) io')
          else (0, io_set a (file_fail f) io')
      | None => (0, io')
      end
  | None => (0, io')
  end.

(** [fflush(fp)]: 0, or EOF = -1; [fflush(NULL)] flushes every stream. *)
Definition fflush (fp : ptr) (io : stdio) : Z * stdio :=
  let io' := io_log (io_fflush fp) io in
  match fp with
  | Some a =>
      match io_files io !! a with
      | Some f => (0, io_set a (file_sync f) io')
      | None => (-1, io')
      end
  | None => (0, mkStdio (file_sync <$> io_files io') (io_trace io'))
  end.

(** [ftell(fp)]: the position, or -1 when the stream is not open or the
    position does not fit a [long] (EOVERFLOW). *)
Definition ftell (H : host) (fp : ptr) (io : stdio) : Z * stdio :=
  let io' := io_log (io_ftell fp) io in
  match io_file fp io with
  | Some f => (if f_pos f <=? LONG_MAX H then f_pos f else -1, io')
  | None => (-1, io')
  end.

Definition SEEK_SET : Z := 0.
Definition SEEK_CUR : Z := 1.
Definition SEEK_END : Z := 2.

(** [fseek(fp, offset, whence)]: 0, or -1 when the stream is not open,
    [whence] is not one of the three or the target is negative (EINVAL).
    A successful seek writes the buffered output out and clears the
    end-of-file indicator. *)
Definition fseek (fp : ptr) (offset whence : Z) (io : stdio) : Z * stdio :=
  let io' := io_log (io_fseek fp offset whence) io in
  match fp with
  | Some a =>
      match io_files io !! a with
      | Some f =>
          let target :=
            if whence =? SEEK_SET then Some offset
            else if whence =? SEEK_CUR then Some (f_pos f + offset)
            else if whence =? SEEK_END
                 then Some (Z.of_nat (length (f_view f)) + offset)
            else None in
          match target with
          | Some t =>
              if t <? 0 then (-1, io')
              else (0, io_set a (file_after_seek f t) io')
          | None => (-1, io')
          end
      | None => (-1, io')
      end
  | None => (-1, io')
  end.

(** ** The stream handle *)

(** Modelled from the spec: the declarations of <rpc/xdr.h> and
    <rpc/types.h> (enum xdr_op, the XDR struct, struct xdr_ops, TRUE,
    FALSE, u_int) are not among the sources.  The handle has a mode, a
    reference to the operation table, the backend's state and the
    scratch fields; the fields are those xdrstdio_create assigns. *)
Inductive xdr_op := XDR_ENCODE | XDR_DECODE.

(** The address of a [static const struct xdr_ops]. *)
Inductive ops_addr := addr_xdrstdio_ops.

Record XDR := mkXDR {
  x_op : xdr_op;
  x_ops : option ops_addr;
  x_lib_0 : ptr;
  x_lib_1 : ptr;
  x_public : ptr;
  x_private : ptr;
  x_handy : Z;
  x_base : Z
}.

(** Assignment to one field of the handle. *)
Definition set_x_op (v : xdr_op) (x : XDR) : XDR :=
  mkXDR v (x_ops x) (x_lib_0 x) (x_lib_1 x) (x_public x) (x_private x)
        (x_handy x) (x_base x).
Definition set_x_ops (v : option ops_addr) (x : XDR) : XDR :=
  mkXDR (x_op x) v (x_lib_0 x) (x_lib_1 x) (x_public x) (x_private x)
        (x_handy x) (x_base x).
Definition set_x_lib_0 (v : ptr) (x : XDR) : XDR :=
  mkXDR (x_op x) (x_ops x) v (x_lib_1 x) (x_public x) (x_private x)
        (x_handy x) (x_base x).
Definition set_x_lib_1 (v : ptr) (x : XDR) : XDR :=
  mkXDR (x_op x) (x_ops x) (x_lib_0 x) v (x_public x) (x_private x)
        (x_handy x) (x_base x).
Definition set_x_public (v : ptr) (x : XDR) : XDR :=
  mkXDR (x_op x) (x_ops x) (x_lib_0 x) (x_lib_1 x) v (x_private x)
        (x_handy x) (x_base x).
Definition set_x_private (v : ptr) (x : XDR) : XDR :=
  mkXDR (x_op x) (x_ops x) (x_lib_0 x) (x_lib_1 x) (x_public x) v
        (x_handy x) (x_base x).
Definition set_x_handy (v : Z) (x : XDR) : XDR :=
  mkXDR (x_op x) (x_ops x) (x_lib_0 x) (x_lib_1 x) (x_public x)
        (x_private x) v (x_base x).
Definition set_x_base (v : Z) (x : XDR) : XDR :=
  mkXDR (x_op x) (x_ops x) (x_lib_0 x) (x_lib_1 x) (x_public x)
        (x_private x) (x_handy x) v.

Definition TRUE : bool := true.
Definition FALSE : bool := false.

(** The state the functions run in: the handle behind [XDR *xdrs] and
    the C library's streams. *)
Record machine := mkMachine { m_xdrs : XDR; m_io : stdio }.

(** Modelled from the spec: struct xdr_ops, a fixed table of function
    entries, one per operation of the contract plus three extension
    slots; the entries take the handle through the machine state. *)
Record xdr_ops := mk_xdr_ops {
  x_getlong : Z -> machine -> bool * Z * machine;
  x_putlong : Z -> machine -> bool * machine;
  x_getbytes : list byte -> Z -> machine -> bool * list byte * machine;
  x_putbytes : list byte -> Z -> machine -> bool * machine;
  x_getpostn : machine -> Z * machine;
  x_setpostn : Z -> machine -> bool * machine;
  x_inline : Z -> machine -> ptr * machine;
  x_destroy : machine -> machine;
  x_control : Z -> ptr -> machine -> bool * machine;
  x_getbufs : ptr -> Z -> Z -> machine -> bool * machine;
  x_putbufs : ptr -> Z -> machine -> bool * machine
}.

Section XdrStdio.

Variable H : host.

(** xdrstdio_create: eight assignments to the fields of [*xdrs]. *)
Definition xdrstdio_create (file : ptr) (op : xdr_op) (m : machine)
  : machine :=
  let xdrs := m_xdrs m in
  let xdrs := set_x_op op xdrs in
  let xdrs := set_x_ops (Some addr_xdrstdio_ops) xdrs in
  let xdrs := set_x_lib_0 NULL xdrs in
  let xdrs := set_x_lib_1 NULL xdrs in
  let xdrs := set_x_public NULL xdrs in
  let xdrs := set_x_private file xdrs in
  let xdrs := set_x_handy 0 xdrs in
  let xdrs := set_x_base 0 xdrs in
  mkMachine xdrs (m_io m).

(** xdrstdio_destroy: the result of fflush is discarded. *)
Definition xdrstdio_destroy (m : machine) : machine :=
  let '(_, io) := fflush (x_private (m_xdrs m)) (m_io m) in
  mkMachine (m_xdrs m) io.

(** xdrstdio_getlong.  [lp] is the value [*lp] holds on entry; the
    second component of the result is the value it holds on return.
    fread stores into the first [sizeof(int32_t)] bytes of the [long]. *)
Definition xdrstdio_getlong (lp : Z) (m : machine) : bool * Z * machine :=
  let '(n, mem, io) :=
    fread (store_long H lp) sizeof_int32_t 1 (x_private (m_xdrs m))
          (m_io m) in
  let m' := mkMachine (m_xdrs m) io in
  if negb (n =? 1) then (FALSE, load_long H mem, m')
  else
    (TRUE, cast_long H (ntohl H (cast_u_int32_t (load_long H mem))), m').

(** xdrstdio_putlong.  [lp] is the value of [*lp]; fwrite takes the
    first [sizeof(int32_t)] bytes of the [long] mycopy. *)
Definition xdrstdio_putlong (lp : Z) (m : machine) : bool * machine :=
  let mycopy := cast_long H (htonl H (cast_u_int32_t lp)) in
  let '(n, io) :=
    fwrite (store_long H mycopy) sizeof_int32_t 1 (x_private (m_xdrs m))
           (m_io m) in
  let m' := mkMachine (m_xdrs m) io in
  if negb (n =? 1) then (FALSE, m') else (TRUE, m').

(** xdrstdio_getbytes.  [addr] is the caller's buffer, of at least [len]
    bytes; [len] is a u_int, and [(size_t) len] keeps its value. *)
Definition xdrstdio_getbytes (addr : list byte) (len : Z) (m : machine)
  : bool * list byte * machine :=
  if negb (len =? 0) then
    let '(n, addr', io) :=
      fread addr len 1 (x_private (m_xdrs m)) (m_io m) in
    let m' := mkMachine (m_xdrs m) io in
    if negb (n =? 1) then (FALSE, addr', m') else (TRUE, addr', m')
  else (TRUE, addr, m).

(** xdrstdio_putbytes *)
Definition xdrstdio_putbytes (addr : list byte) (len : Z) (m : machine)
  : bool * machine :=
  if negb (len =? 0) then
    let '(n, io) := fwrite addr len 1 (x_private (m_xdrs m)) (m_io m) in
    let m' := mkMachine (m_xdrs m) io in
    if negb (n =? 1) then (FALSE, m') else (TRUE, m')
  else (TRUE, m).

(** xdrstdio_getpos *)
Definition xdrstdio_getpos (m : machine) : Z * machine :=
  let '(r, io) := ftell H (x_private (m_xdrs m)) (m_io m) in
  (cast_u_int r, mkMachine (m_xdrs m) io).

(** xdrstdio_setpos *)
Definition xdrstdio_setpos (pos : Z) (m : machine) : bool * machine :=
  let '(r, io) :=
    fseek (x_private (m_xdrs m)) (cast_long H pos) 0 (m_io m) in
  (if r <? 0 then FALSE else TRUE, mkMachine (m_xdrs m) io).

(** xdrstdio_inline *)
Definition xdrstdio_inline (len : Z) (m : machine) : ptr * machine :=
  (NULL, m).

(** xdrstdio_noop *)
Definition xdrstdio_noop : bool := FALSE.

(** Ops vector for stdio type XDR; the last three entries are
    xdrstdio_noop under a cast. *)
Definition xdrstdio_ops : xdr_ops :=
  mk_xdr_ops
    xdrstdio_getlong
    xdrstdio_putlong
    xdrstdio_getbytes
    xdrstdio_putbytes
    xdrstdio_getpos
    xdrstdio_setpos
    xdrstdio_inline
    xdrstdio_destroy
    (fun _ _ m => (xdrstdio_noop, m))
    (fun _ _ _ m => (xdrstdio_noop, m))
    (fun _ _ m => (xdrstdio_noop, m)).

Definition deref_ops (a : ops_addr) : xdr_ops :=
  match a with addr_xdrstdio_ops => xdrstdio_ops end.

(** Modelled from the spec: the caller drives a handle only through the
    operations of the contract, each a call through the table the
    handle refers to (the XDR_GETLONG, XDR_PUTLONG, ... macros of
    <rpc/xdr.h>, which are not among the sources). *)
Inductive xdr_call :=
| XDR_GETLONG (lp : Z)
| XDR_PUTLONG (lp : Z)
| XDR_GETBYTES (addr : list byte) (len : Z)
| XDR_PUTBYTES (addr : list byte) (len : Z)
| XDR_GETPOS
| XDR_SETPOS (pos : Z)
| XDR_INLINE (len : Z)
| XDR_DESTROY.

Inductive xdr_ret :=
| ret_bool (ok : bool)
| ret_long (ok : bool) (v : Z)
| ret_bytes (ok : bool) (buf : list byte)
| ret_pos (pos : Z)
| ret_ptr (p : ptr)
| ret_void
| ret_fault.

Definition xdr_invoke (c : xdr_call) (m : machine) : xdr_ret * machine :=
  match x_ops (m_xdrs m) with
  | None => (ret_fault, m)
  | Some a =>
      let ops := deref_ops a in
      match c with
      | XDR_GETLONG lp =>
          let '(ok, v, m') := x_getlong ops lp m in (ret_long ok v, m')
      | XDR_PUTLONG lp =>
          let '(ok, m') := x_putlong ops lp m in (ret_bool ok, m')
      | XDR_GETBYTES addr len =>
          let '(ok, buf, m') := x_getbytes ops addr len m in
          (ret_bytes ok buf, m')
      | XDR_PUTBYTES addr len =>
          let '(ok, m') := x_putbytes ops addr len m in (ret_bool ok, m')
      | XDR_GETPOS =>
          let '(p, m') := x_getpostn ops m in (ret_pos p, m')
      | XDR_SETPOS pos =>
          let '(ok, m') := x_setpostn ops pos m in (ret_bool ok, m')
      | XDR_INLINE len =>
          let '(p, m') := x_inline ops len m in (ret_ptr p, m')
      | XDR_DESTROY => (ret_void, x_destroy ops m)
      end
  end.

Fixpoint xdr_run (cs : list xdr_call) (m : machine) : machine :=
  match cs with
  | [] => m
  | c :: cs' => xdr_run cs' (snd (xdr_invoke c m))
  end.

(** The get operations of the contract. *)
Definition is_get (c : xdr_call) : bool :=
  match c with
  | XDR_GETLONG _ | XDR_GETBYTES _ _ | XDR_GETPOS => true
  | _ => false
  end.

End XdrStdio.

(** ** Vocabulary of the properties *)

(** Four hosts, by byte order and data model. *)
Definition LE_LP64 : host := mkHost LittleEndian LONG64.
Definition LE_ILP32 : host := mkHost LittleEndian LONG32.
Definition BE_LP64 : host := mkHost BigEndian LONG64.
Definition BE_ILP32 : host := mkHost BigEndian LONG32.

(** The first four bytes of a [long] hold its low 32 bits: every host
    but the big-endian ones with a 64-bit [long]. *)
Definition low_word_first (H : host) : bool :=
  match h_endian H, h_long H with
  | BigEndian, LONG64 => false
  | _, _ => true
  end.

Definition in_int32 (x : Z) : Prop := INT32_MIN <= x <= INT32_MAX.

(** The stream behind a handle, the four bytes the next get_long
    consumes and the number of bytes left to read. *)
Definition stream_file (m : machine) : option FILE :=
  io_file (x_private (m_xdrs m)) (m_io m).

Definition wire_bytes (m : machine) : list byte :=
  match stream_file m with
  | Some f => take 4 (file_rest f)
  | None => []
  end.

Definition bytes_remaining (m : machine) : nat :=
  match stream_file m with
  | Some f => length (file_rest f)
  | None => 0%nat
  end.

(** The bytes of a partial item: what fread stores when fewer bytes
    are left than one item takes. *)
Definition partial_item (m : machine) : list byte :=
  match stream_file m with
  | Some f => if f_readable f then file_rest f else []
  | None => []
  end.

(** An empty file just opened for update, alone in the table. *)
Definition fresh_file : FILE := mkFILE true true [] [] 0 false false.

Definition fresh_stream (a : positive) (xdrs : XDR) : machine :=
  mkMachine xdrs (mkStdio {[a := fresh_file]} []).

(** A handle no one has initialised yet: whatever the memory held. *)
Definition stale_handle : XDR :=
  mkXDR XDR_DECODE None (Some 7%positive) None (Some 9%positive) None 5 3.

(** An encode handle on an empty file, a decode handle on a read-only
    file that holds [bs], and a handle on a file at offset [pos]. *)
Definition encode_stream (a : positive) : machine :=
  xdrstdio_create (Some a) XDR_ENCODE (fresh_stream a stale_handle).

Definition read_only_file (bs : list byte) : FILE :=
  mkFILE true false bs bs 0 false false.

Definition decode_stream (a : positive) (bs : list byte) : machine :=
  xdrstdio_create (Some a) XDR_DECODE
    (mkMachine stale_handle (mkStdio {[a := read_only_file bs]} [])).

Definition stream_at (a : positive) (pos : Z) : machine :=
  xdrstdio_create (Some a) XDR_ENCODE
    (mkMachine stale_handle
       (mkStdio {[a := mkFILE true true [] [] pos false false]} [])).

(** The bytes seen through the stream behind a handle, and those of the
    underlying file. *)
Definition stream_view (m : machine) : list byte :=
  from_option f_view [] (stream_file m).

Definition stream_disk (m : machine) : list byte :=
  from_option f_disk [] (stream_file m).

(** put_long into a fresh stream, then get_long from the bytes written:
    the caller creates an encode handle, puts [x], destroys the handle,
    rewinds the file, creates a decode handle and gets into a [long]
    that held [lp0].  The result: did put_long succeed, the bytes of the
    file, did get_long succeed, the value decoded. *)
Definition put_then_get (H : host) (a : positive) (xdrs : XDR) (x lp0 : Z)
  : bool * list byte * bool * Z :=
  let m1 := xdrstdio_create (Some a) XDR_ENCODE (fresh_stream a xdrs) in
  let '(ok1, m2) := xdrstdio_putlong H x m1 in
  let m3 := xdrstdio_destroy m2 in
  let '(_, io) := fseek (Some a) 0 SEEK_SET (m_io m3) in
  let m4 := xdrstdio_create (Some a) XDR_DECODE (mkMachine (m_xdrs m3) io) in
  let '(ok2, v, _) := xdrstdio_getlong H lp0 m4 in
  (ok1, from_option f_disk [] (io_files io !! a), ok2, v).

(** What a file holds, whatever the position and the indicators. *)
Definition file_contents (f : FILE) : list byte * list byte :=
  (f_view f, f_disk f).

Definition io_contents (io : stdio) : gmap positive (list byte * list byte) :=
  file_contents <$> io_files io.

(** The libc calls that cannot change a file. *)
Definition io_is_query (c : io_call) : bool :=
  match c with
  | io_fread _ _ _ | io_ftell _ => true
  | _ => false
  end.

(** [io'] comes from [io] by libc calls that cannot change a file: the
    contents of every file are the same and the trace has grown by such
    calls only. *)
Definition quiet_step (io io' : stdio) : Prop :=
  io_contents io' = io_contents io
  /\ exists evs, io_trace io' = io_trace io ++ evs
                 /\ forallb io_is_query evs = true.

(** A run of operations that keeps what each call returned. *)
Fixpoint xdr_run_results (H : host) (cs : list xdr_call) (m : machine)
  : list xdr_ret * machine :=
  match cs with
  | [] => ([], m)
  | c :: cs' =>
      let '(r, m1) := xdr_invoke H c m in
      let '(rs, m2) := xdr_run_results H cs' m1 in
      (r :: rs, m2)
  end.

(** The put operations of the contract, and the libc call they make. *)
Definition is_put (c : xdr_call) : bool :=
  match c with
  | XDR_PUTLONG _ | XDR_PUTBYTES _ _ => true
  | _ => false
  end.

Definition io_is_fwrite (c : io_call) : bool :=
  match c with
  | io_fwrite _ _ _ => true
  | _ => false
  end.

(** The operations that transfer data, the number of bytes a call
    transfers when it succeeds, and whether a call reported success. *)
Definition is_transfer (c : xdr_call) : bool :=
  match c with
  | XDR_GETLONG _ | XDR_PUTLONG _ | XDR_GETBYTES _ _ | XDR_PUTBYTES _ _ =>
      true
  | _ => false
  end.

Definition call_size (c : xdr_call) : Z :=
  match c with
  | XDR_GETLONG _ | XDR_PUTLONG _ => sizeof_int32_t
  | XDR_GETBYTES _ len | XDR_PUTBYTES _ len => len
  | _ => 0
  end.

Definition ret_ok (r : xdr_ret) : bool :=
  match r with
  | ret_bool ok | ret_long ok _ | ret_bytes ok _ => ok
  | _ => false
  end.

(** What can be observed of the C library's state through its calls:
    every stream but for the contents of the underlying file, which only
    reopening the file shows. *)
Definition file_visible (f : FILE) : FILE :=
  mkFILE (f_readable f) (f_writable f) (f_view f) [] (f_pos f) (f_eof f)
         (f_err f).

Definition io_visible (io : stdio) : gmap positive FILE :=
  file_visible <$> io_files io.

(** Two states a function of this file cannot tell apart: it reads the
    handle's table and FILE only, and the C library's state. *)
Definition same_stream (m m' : machine) : Prop :=
  x_ops (m_xdrs m) = x_ops (m_xdrs m')
  /\ x_private (m_xdrs m) = x_private (m_xdrs m')
  /\ m_io m = m_io m'.

(** An update-mode file that holds [bs], positioned at [pos]. *)
Definition update_stream (a : positive) (bs : list byte) (pos : Z)
  : machine :=
  xdrstdio_create (Some a) XDR_ENCODE
    (mkMachine stale_handle
       (mkStdio {[a := mkFILE true true bs bs pos false false]} [])).

(** ** Bytes and byte sequences *)

Lemma byte_to_Z_range (b : byte) : 0 <= byte_to_Z b < 256.
Proof.
  unfold byte_to_Z. pose proof (Byte.to_N_bounded b) as Hb.
  split; [apply N2Z.is_nonneg | lia].
Qed.

Lemma Z_to_byte_to_Z (b : byte) : Z_to_byte (byte_to_Z b) = b.
Proof.
  unfold Z_to_byte, byte_to_Z.
  rewrite Z.mod_small by (apply (byte_to_Z_range b)).
  rewrite N2Z.id, Byte.of_to_N. reflexivity.
Qed.

Lemma byte_to_Z_to_byte (z : Z) : byte_to_Z (Z_to_byte z) = z mod 256.
Proof.
  unfold Z_to_byte, byte_to_Z.
  pose proof (Z.mod_pos_bound z 256 ltac:(lia)) as Hr.
  destruct (Byte.of_N (Z.to_N (z mod 256))) as [b|] eqn:E; simpl.
  - apply Byte.to_of_N in E. rewrite E. lia.
  - apply Byte.of_N_None_iff in E. lia.
Qed.

Lemma Z_to_byte_mod (z : Z) : Z_to_byte (z mod 256) = Z_to_byte z.
Proof. unfold Z_to_byte. rewrite Z.mod_mod by lia. reflexivity. Qed.

Lemma length_le_encode (n : nat) (v : Z) : length (le_encode n v) = n.
Proof. revert v; induction n as [|n IH]; intros v; simpl; [|rewrite IH]; reflexivity. Qed.

Lemma le_decode_range (bs : list byte) :
  0 <= le_decode bs < 2 ^ (8 * Z.of_nat (length bs)).
Proof.
  induction bs as [|b bs IH]; simpl le_decode.
  - simpl. lia.
  - pose proof (byte_to_Z_range b) as Hb.
    replace (8 * Z.of_nat (length (b :: bs)))
      with (8 + 8 * Z.of_nat (length bs)) by (simpl length; lia).
    rewrite Z.pow_add_r by lia. change (2 ^ 8) with 256. nia.
Qed.

Lemma le_decode_encode (n : nat) (v : Z) :
  le_decode (le_encode n v) = v mod 2 ^ (8 * Z.of_nat n).
Proof.
  revert v; induction n as [|n IH]; intros v.
  - simpl. rewrite Z.mod_1_r. reflexivity.
  - cbn [le_encode le_decode]. rewrite IH, byte_to_Z_to_byte.
    replace (8 * Z.of_nat (S n)) with (8 + 8 * Z.of_nat n) by lia.
    rewrite Z.pow_add_r by lia. change (2 ^ 8) with 256.
    rewrite Z.rem_mul_r by lia. reflexivity.
Qed.

Lemma le_encode_decode (bs : list byte) :
  le_encode (length bs) (le_decode bs) = bs.
Proof.
  induction bs as [|b bs IH]; [reflexivity|].
  cbn [length le_encode le_decode].
  pose proof (byte_to_Z_range b) as Hb.
  replace (byte_to_Z b + 256 * le_decode bs)
    with (byte_to_Z b + le_decode bs * 256) by lia.
  f_equal.
  - rewrite <- Z_to_byte_mod, Z.mod_add, Z.mod_small by lia.
    apply Z_to_byte_to_Z.
  - rewrite Z.div_add, Z.div_small by lia. exact IH.
Qed.

Lemma le_encode_mod (n : nat) (v : Z) :
  le_encode n (v mod 2 ^ (8 * Z.of_nat n)) = le_encode n v.
Proof.
  rewrite <- (le_decode_encode n v).
  rewrite <- (length_le_encode n v) at 1.
  apply le_encode_decode.
Qed.

Lemma le_encode_congr (n : nat) (v w : Z) :
  v mod 2 ^ (8 * Z.of_nat n) = w mod 2 ^ (8 * Z.of_nat n) ->
  le_encode n v = le_encode n w.
Proof.
  intros E. rewrite <- (le_encode_mod n v), <- (le_encode_mod n w), E.
  reflexivity.
Qed.

Lemma take_le_encode (k n : nat) (v : Z) :
  (k <= n)%nat -> take k (le_encode n v) = le_encode k v.
Proof.
  revert n v; induction k as [|k IH]; intros n v Hk; [reflexivity|].
  destruct n as [|n]; [lia|].
  cbn [le_encode take]. rewrite IH by lia. reflexivity.
Qed.

Lemma drop_le_encode (k n : nat) (v : Z) :
  drop k (le_encode (k + n) v) = le_encode n (v / 2 ^ (8 * Z.of_nat k)).
Proof.
  revert v; induction k as [|k IH]; intros v.
  - simpl. rewrite Z.div_1_r. reflexivity.
  - cbn [Nat.add le_encode drop]. rewrite IH.
    replace (8 * Z.of_nat (S k)) with (8 + 8 * Z.of_nat k) by lia.
    rewrite Z.pow_add_r by lia. change (2 ^ 8) with 256.
    rewrite Z.div_div by lia. reflexivity.
Qed.

Lemma le_decode_app (bs cs : list byte) :
  le_decode (bs ++ cs)
  = le_decode bs + 2 ^ (8 * Z.of_nat (length bs)) * le_decode cs.
Proof.
  induction bs as [|b bs IH].
  - simpl. lia.
  - cbn [app le_decode]. rewrite IH.
    replace (8 * Z.of_nat (length (b :: bs)))
      with (8 + 8 * Z.of_nat (length bs)) by (simpl length; lia).
    rewrite Z.pow_add_r by lia. change (2 ^ 8) with 256. ring.
Qed.

Lemma length_be_encode (n : nat) (v : Z) : length (be_encode n v) = n.
Proof. unfold be_encode. rewrite length_rev. apply length_le_encode. Qed.

Lemma be_decode_encode (n : nat) (v : Z) :
  be_decode (be_encode n v) = v mod 2 ^ (8 * Z.of_nat n).
Proof.
  unfold be_decode, be_encode. rewrite rev_involutive.
  apply le_decode_encode.
Qed.

Lemma be_encode_decode (bs : list byte) :
  be_encode (length bs) (be_decode bs) = bs.
Proof.
  unfold be_decode, be_encode.
  rewrite <- (length_rev bs), le_encode_decode. apply rev_involutive.
Qed.

Lemma be_decode_range (bs : list byte) :
  0 <= be_decode bs < 2 ^ (8 * Z.of_nat (length bs)).
Proof.
  unfold be_decode. rewrite <- (length_rev bs). apply le_decode_range.
Qed.

Lemma be_encode_congr (n : nat) (v w : Z) :
  v mod 2 ^ (8 * Z.of_nat n) = w mod 2 ^ (8 * Z.of_nat n) ->
  be_encode n v = be_encode n w.
Proof. intros E. unfold be_encode. f_equal. apply le_encode_congr, E. Qed.

Lemma be_decode_app (bs cs : list byte) :
  be_decode (bs ++ cs)
  = be_decode cs + 2 ^ (8 * Z.of_nat (length cs)) * be_decode bs.
Proof.
  unfold be_decode. rewrite rev_app_distr, le_decode_app, length_rev.
  reflexivity.
Qed.

(** The trailing bytes of a big-endian sequence are the low ones. *)
Lemma drop_be_encode (k n : nat) (v : Z) :
  drop n (be_encode (k + n) v) = be_encode k v.
Proof.
  unfold be_encode.
  rewrite <- (take_drop k (le_encode (k + n) v)) at 1.
  rewrite rev_app_distr.
  rewrite drop_app_length'
    by (rewrite length_rev, length_drop, length_le_encode; lia).
  rewrite take_le_encode by lia. reflexivity.
Qed.

(** The leading bytes of a big-endian sequence are the high ones. *)
Lemma take_be_encode (k n : nat) (v : Z) :
  take k (be_encode (n + k) v) = be_encode k (v / 2 ^ (8 * Z.of_nat n)).
Proof.
  unfold be_encode.
  rewrite <- (length_le_encode k (v / 2 ^ (8 * Z.of_nat n))) at 1.
  rewrite <- drop_le_encode, <- length_rev.
  rewrite <- (take_drop n (le_encode (n + k) v)) at 2.
  rewrite rev_app_distr. apply take_app_length.
Qed.

(** ** Two's complement *)

Lemma wrap_signed_mod (bits v : Z) :
  0 < bits -> wrap_signed bits v mod 2 ^ bits = v mod 2 ^ bits.
Proof.
  intros Hb. unfold wrap_signed.
  assert (0 < 2 ^ bits) by (apply Z.pow_pos_nonneg; lia).
  destruct (_ <? _).
  - apply Z.mod_mod. lia.
  - replace (v mod 2 ^ bits - 2 ^ bits)
      with (v mod 2 ^ bits + (-1) * 2 ^ bits) by lia.
    rewrite Z.mod_add by lia. apply Z.mod_mod. lia.
Qed.

Lemma wrap_signed_low (bits v : Z) :
  32 <= bits -> wrap_signed bits v mod 2 ^ 32 = v mod 2 ^ 32.
Proof.
  intros Hb.
  assert (E : 2 ^ bits = 2 ^ 32 * 2 ^ (bits - 32))
    by (rewrite <- Z.pow_add_r by lia; f_equal; lia).
  assert (0 < 2 ^ (bits - 32)) by (apply Z.pow_pos_nonneg; lia).
  assert (D : (2 ^ 32 | 2 ^ bits)) by (exists (2 ^ (bits - 32)); lia).
  rewrite <- (Z.mod_mod_divide (wrap_signed bits v) _ _ D).
  rewrite <- (Z.mod_mod_divide v _ _ D).
  rewrite wrap_signed_mod by lia. reflexivity.
Qed.

Lemma wrap_signed_small (bits v : Z) :
  0 < bits -> 0 <= v < 2 ^ (bits - 1) -> wrap_signed bits v = v.
Proof.
  intros Hb Hv. unfold wrap_signed.
  assert (E : 2 ^ bits = 2 * 2 ^ (bits - 1))
    by (rewrite <- Z.pow_succ_r by lia; f_equal; lia).
  rewrite Z.mod_small by lia.
  destruct (Z.ltb_spec v (2 ^ (bits - 1))); lia.
Qed.

Lemma wrap_signed_range (bits v : Z) :
  0 < bits -> - 2 ^ (bits - 1) <= wrap_signed bits v < 2 ^ (bits - 1).
Proof.
  intros Hb. unfold wrap_signed.
  assert (E : 2 ^ bits = 2 * 2 ^ (bits - 1))
    by (rewrite <- Z.pow_succ_r by lia; f_equal; lia).
  assert (0 < 2 ^ (bits - 1)) by (apply Z.pow_pos_nonneg; lia).
  pose proof (Z.mod_pos_bound v (2 ^ bits) ltac:(lia)).
  destruct (Z.ltb_spec (v mod 2 ^ bits) (2 ^ (bits - 1))); lia.
Qed.

Lemma wrap_signed_int32 (x : Z) :
  in_int32 x -> wrap_signed 32 (x mod 2 ^ 32) = x.
Proof.
  unfold in_int32, INT32_MIN, INT32_MAX, wrap_signed. intros Hx.
  rewrite Z.mod_mod by lia.
  destruct (Z.ltb_spec (x mod 2 ^ 32) (2 ^ (32 - 1))) as [Hlt|Hge];
    change (2 ^ (32 - 1)) with 2147483648 in *;
    change (2 ^ 32) with 4294967296 in *;
    change (2 ^ 31) with 2147483648 in *.
  - destruct (Z.neg_nonneg_cases x) as [Hn|Hp].
    + assert (x mod 4294967296 = x + 4294967296); [|lia].
      symmetry. apply (Z.mod_unique x 4294967296 (-1)); lia.
    + rewrite Z.mod_small; lia.
  - destruct (Z.neg_nonneg_cases x) as [Hn|Hp].
    + assert (x mod 4294967296 = x + 4294967296); [|lia].
      symmetry. apply (Z.mod_unique x 4294967296 (-1)); lia.
    + rewrite Z.mod_small in Hge; lia.
Qed.

Lemma wrap_signed_idem (bits v : Z) :
  wrap_signed bits (v mod 2 ^ bits) = wrap_signed bits v.
Proof.
  unfold wrap_signed.
  destruct (Z.eq_dec (2 ^ bits) 0) as [E|E].
  - rewrite E, !Z.mod_0_r. reflexivity.
  - rewrite Z.mod_mod by exact E. reflexivity.
Qed.

Lemma wrap_signed_int32' (x : Z) : in_int32 x -> wrap_signed 32 x = x.
Proof. intros Hx. rewrite <- wrap_signed_idem. apply wrap_signed_int32, Hx. Qed.

(** ** Byte order of a [long] and of the wire *)

Lemma long_bits_cases (H : host) : long_bits H = 32 \/ long_bits H = 64.
Proof. unfold long_bits, sizeof_long. destruct (h_long H); auto. Qed.

(** A conversion to [long] yields a value of the type. *)
Lemma cast_long_range (H : host) (v : Z) :
  LONG_MIN H <= cast_long H v <= LONG_MAX H.
Proof.
  unfold LONG_MIN, LONG_MAX, cast_long.
  pose proof (wrap_signed_range (long_bits H) v) as Hr.
  destruct (long_bits_cases H) as [E|E]; rewrite E in *; lia.
Qed.

Lemma length_store_long (H : host) (v : Z) :
  length (store_long H v) = sizeof_long H.
Proof.
  unfold store_long, host_encode.
  destruct (h_endian H); [apply length_le_encode | apply length_be_encode].
Qed.

Lemma sizeof_long_ge_4 (H : host) : (4 <= sizeof_long H)%nat.
Proof. unfold sizeof_long. destruct (h_long H); lia. Qed.

(** [htonl] and [ntohl] are the identity on a big-endian host and the
    byte swap on a little-endian one, and undo each other. *)
Lemma htonl_big_endian (H : host) (u : Z) :
  h_endian H = BigEndian -> htonl H u = u mod 2 ^ 32.
Proof.
  intros E. unfold htonl, host_decode. rewrite E.
  apply be_decode_encode.
Qed.

Lemma htonl_little_endian_example :
  htonl LE_LP64 287454020 = 1144201745 /\ ntohl LE_LP64 1 = 16777216.
Proof. split; reflexivity. Qed.

Lemma ntohl_htonl (H : host) (u : Z) : ntohl H (htonl H u) = u mod 2 ^ 32.
Proof.
  unfold ntohl, htonl, host_encode, host_decode.
  destruct (h_endian H).
  - rewrite <- (length_be_encode 4 u) at 1.
    rewrite le_encode_decode. apply be_decode_encode.
  - rewrite !be_decode_encode. apply Z.mod_mod. lia.
Qed.

(** What fwrite finds at [&mycopy] in xdrstdio_putlong. *)
Lemma mycopy_prefix (H : host) (x : Z) :
  low_word_first H = true ->
  take 4 (store_long H (cast_long H (htonl H (cast_u_int32_t x))))
  = be_encode 4 x.
Proof.
  intros Hw. unfold store_long, cast_long, htonl, host_encode, host_decode.
  pose proof (sizeof_long_ge_4 H) as Hs.
  pose proof (long_bits_cases H) as Hb.
  destruct H as [e w]; destruct e; cbn [h_endian] in *.
  - rewrite take_le_encode by exact Hs.
    rewrite <- (le_encode_mod 4). change (8 * Z.of_nat 4) with 32.
    rewrite wrap_signed_low by lia.
    change 32 with (8 * Z.of_nat 4). rewrite le_encode_mod.
    rewrite <- (length_be_encode 4 (cast_u_int32_t x)) at 1.
    rewrite le_encode_decode. apply be_encode_congr.
    unfold cast_u_int32_t. change (8 * Z.of_nat 4) with 32.
    apply Z.mod_mod. lia.
  - destruct w; [|discriminate Hw].
    change (sizeof_long (mkHost BigEndian LONG32)) with 4%nat.
    change (long_bits (mkHost BigEndian LONG32)) with 32.
    rewrite take_ge by (rewrite length_be_encode; lia).
    apply be_encode_congr.
    change (8 * Z.of_nat 4) with 32.
    rewrite wrap_signed_mod by lia.
    rewrite be_decode_encode. change (8 * Z.of_nat 4) with 32.
    unfold cast_u_int32_t. rewrite !Z.mod_mod by lia. reflexivity.
Qed.

(** What xdrstdio_getlong computes from a [long] whose first four bytes
    fread has replaced by [w]. *)
Lemma ntohl_of_read (H : host) (w : list byte) (lp : Z) :
  low_word_first H = true -> length w = 4%nat ->
  ntohl H (cast_u_int32_t (load_long H (w ++ drop 4 (store_long H lp))))
  = be_decode w.
Proof.
  intros Hw Hl. unfold load_long, ntohl, cast_u_int32_t.
  pose proof (sizeof_long_ge_4 H) as Hs.
  pose proof (long_bits_cases H) as Hb.
  pose proof (length_store_long H lp) as Hn.
  rewrite wrap_signed_low by lia.
  rewrite take_ge by (rewrite length_app, length_drop; lia).
  unfold host_decode, host_encode.
  destruct H as [e lw]; destruct e; cbn [h_endian] in *.
  - rewrite le_decode_app, Hl. change (8 * Z.of_nat 4) with 32.
    rewrite (Z.mul_comm (2 ^ 32)), Z.mod_add by lia.
    pose proof (le_decode_range w) as Hr. rewrite Hl in Hr.
    change (8 * Z.of_nat 4) with 32 in Hr.
    rewrite Z.mod_small by lia.
    rewrite <- Hl, le_encode_decode. reflexivity.
  - destruct lw; [|discriminate Hw].
    change (sizeof_long (mkHost BigEndian LONG32)) with 4%nat in Hn.
    rewrite drop_ge by lia. rewrite app_nil_r.
    pose proof (be_decode_range w) as Hr. rewrite Hl in Hr.
    change (8 * Z.of_nat 4) with 32 in Hr.
    rewrite Z.mod_small by lia.
    rewrite <- Hl, be_encode_decode. reflexivity.
Qed.

(** On a big-endian host with a 64-bit [long] the first four bytes of
    mycopy are its high half, which is zero. *)
Lemma mycopy_prefix_BE_LP64 (x : Z) :
  take 4 (store_long BE_LP64
            (cast_long BE_LP64 (htonl BE_LP64 (cast_u_int32_t x))))
  = [x00; x00; x00; x00].
Proof.
  unfold store_long, cast_long, htonl, host_encode, host_decode.
  change (h_endian BE_LP64) with BigEndian. cbv iota.
  change (sizeof_long BE_LP64) with (4 + 4)%nat.
  change (long_bits BE_LP64) with 64.
  rewrite take_be_encode, be_decode_encode.
  change (8 * Z.of_nat 4) with 32.
  unfold cast_u_int32_t. rewrite Z.mod_mod by lia.
  pose proof (Z.mod_pos_bound x (2 ^ 32) ltac:(lia)) as Hx.
  rewrite wrap_signed_small by lia.
  rewrite Z.div_small by lia. reflexivity.
Qed.

(** ** The stdio model *)

Lemma fread_one_item (buf : list byte) (size : Z) (a : positive)
      (io : stdio) (f : FILE) :
  io_files io !! a = Some f -> f_readable f = true -> 0 < size ->
  (Z.to_nat size <= length (file_rest f))%nat ->
  fread buf size 1 (Some a) io
  = (1,
     take (Z.to_nat size) (file_rest f) ++ drop (Z.to_nat size) buf,
     io_set a (file_after_read f (Z.to_nat size) (Z.to_nat size))
            (io_log (io_fread (Some a) size 1) io)).
Proof.
  intros Hf Hr Hs Hl. unfold fread. rewrite Hf, Hr, Z.mul_1_r.
  rewrite length_take, Nat.min_l by exact Hl.
  destruct (Z.eqb_spec size 0) as [|_]; [lia|].
  rewrite Z2Nat.id, Z.div_same by lia. reflexivity.
Qed.

Lemma fread_item_inv (buf : list byte) (size : Z) (fp : ptr) (io : stdio) :
  0 < size -> fst (fst (fread buf size 1 fp io)) = 1 ->
  exists a f, fp = Some a /\ io_files io !! a = Some f
              /\ f_readable f = true
              /\ (Z.to_nat size <= length (file_rest f))%nat.
Proof.
  intros Hs. unfold fread.
  destruct fp as [a|]; [|cbn; discriminate].
  destruct (io_files io !! a) as [f|] eqn:Hf; [|cbn; discriminate].
  destruct (f_readable f) eqn:Hr; [|cbn; discriminate].
  cbn [fst]. rewrite Z.mul_1_r.
  destruct (Z.eqb_spec size 0) as [|_]; [lia|].
  intros Hn. exists a, f. repeat split; trivial.
  rewrite length_take in Hn.
  destruct (Nat.le_gt_cases (Z.to_nat size) (length (file_rest f)))
    as [Hle|Hgt]; [exact Hle|].
  rewrite Nat.min_r in Hn by lia.
  rewrite Z.div_small in Hn by lia. discriminate.
Qed.

Lemma fwrite_one_item (buf : list byte) (size : Z) (a : positive)
      (io : stdio) (f : FILE) :
  io_files io !! a = Some f -> f_writable f = true -> 0 < size ->
  (Z.to_nat size <= length buf)%nat ->
  fwrite buf size 1 (Some a) io
  = (1, io_set a (file_after_write f (take (Z.to_nat size) buf))
               (io_log (io_fwrite (Some a) size 1) io)).
Proof.
  intros Hf Hw Hs Hl. unfold fwrite. rewrite Hf, Hw, Z.mul_1_r.
  destruct (Z.leb_spec size 0) as [|_]; [lia|].
  rewrite length_take, Nat.min_l by exact Hl.
  rewrite Z2Nat.id, Z.div_same by lia. reflexivity.
Qed.

Lemma fflush_open (a : positive) (io : stdio) (f : FILE) :
  io_files io !! a = Some f ->
  fflush (Some a) io
  = (0, io_set a (file_sync f) (io_log (io_fflush (Some a)) io)).
Proof. intros Hf. unfold fflush. cbn [io_log io_files]. rewrite Hf. reflexivity. Qed.

Lemma fseek_set_open (a : positive) (offset : Z) (io : stdio) (f : FILE) :
  io_files io !! a = Some f -> 0 <= offset ->
  fseek (Some a) offset 0 io
  = (0, io_set a (file_after_seek f offset)
               (io_log (io_fseek (Some a) offset 0) io)).
Proof.
  intros Hf Ho. unfold fseek. rewrite Hf.
  change (0 =? SEEK_SET) with true. cbv iota.
  destruct (Z.ltb_spec offset 0); [lia | reflexivity].
Qed.

Lemma fseek_set_negative (fp : ptr) (offset : Z) (io : stdio) :
  offset < 0 ->
  fseek fp offset 0 io = (-1, io_log (io_fseek fp offset 0) io).
Proof.
  intros Ho. unfold fseek.
  destruct fp as [a|]; [|reflexivity].
  destruct (io_files io !! a); [|reflexivity].
  change (0 =? SEEK_SET) with true. cbv iota.
  destruct (Z.ltb_spec offset 0); [reflexivity | lia].
Qed.

Lemma ftell_open (H : host) (a : positive) (io : stdio) (f : FILE) :
  io_files io !! a = Some f -> f_pos f <= LONG_MAX H ->
  ftell H (Some a) io = (f_pos f, io_log (io_ftell (Some a)) io).
Proof.
  intros Hf Hp. unfold ftell, io_file. rewrite Hf.
  destruct (Z.leb_spec (f_pos f) (LONG_MAX H)); [reflexivity | lia].
Qed.

Lemma io_files_set (a : positive) (f : FILE) (io : stdio) :
  io_files (io_set a f io) !! a = Some f.
Proof. apply lookup_insert_eq. Qed.

Lemma overwrite_empty (data : list byte) : overwrite [] 0 data = data.
Proof.
  unfold overwrite. cbn [take app]. rewrite drop_nil. apply app_nil_r.
Qed.

Lemma overwrite_read_back (old data : list byte) (pos : nat) :
  take (length data) (drop pos (overwrite old pos data)) = data.
Proof.
  unfold overwrite.
  assert (Hl : length (take pos (old ++ replicate (pos - length old) x00))
               = pos).
  { rewrite length_take, length_app, length_replicate. lia. }
  rewrite drop_app_length' by (symmetry; exact Hl).
  apply take_app_length.
Qed.

(** ** The operations *)

Lemma xdrstdio_create_eq (file : ptr) (op : xdr_op) (m : machine) :
  xdrstdio_create file op m
  = mkMachine (mkXDR op (Some addr_xdrstdio_ops) NULL NULL NULL file 0 0)
              (m_io m).
Proof. reflexivity. Qed.

Lemma xdrstdio_putlong_ok (H : host) (x : Z) (m : machine) (a : positive)
      (f : FILE) :
  low_word_first H = true ->
  x_private (m_xdrs m) = Some a ->
  io_files (m_io m) !! a = Some f -> f_writable f = true ->
  xdrstdio_putlong H x m
  = (TRUE,
     mkMachine (m_xdrs m)
       (io_set a (file_after_write f (be_encode 4 x))
               (io_log (io_fwrite (Some a) 4 1) (m_io m)))).
Proof.
  intros Hw Hp Hf Hfw. unfold xdrstdio_putlong. rewrite Hp.
  rewrite (fwrite_one_item _ _ a _ f Hf Hfw)
    by (rewrite ?length_store_long; pose proof (sizeof_long_ge_4 H);
        unfold sizeof_int32_t; lia).
  change (Z.to_nat sizeof_int32_t) with 4%nat.
  rewrite mycopy_prefix by exact Hw. reflexivity.
Qed.

Lemma xdrstdio_getlong_ok (H : host) (lp : Z) (m : machine) (a : positive)
      (f : FILE) :
  low_word_first H = true ->
  x_private (m_xdrs m) = Some a ->
  io_files (m_io m) !! a = Some f -> f_readable f = true ->
  (4 <= length (file_rest f))%nat ->
  xdrstdio_getlong H lp m
  = (TRUE, cast_long H (be_decode (take 4 (file_rest f))),
     mkMachine (m_xdrs m)
       (io_set a (file_after_read f 4 4)
               (io_log (io_fread (Some a) 4 1) (m_io m)))).
Proof.
  intros Hw Hp Hf Hfr Hl. unfold xdrstdio_getlong. rewrite Hp.
  rewrite (fread_one_item _ _ a _ f Hf Hfr)
    by (unfold sizeof_int32_t; cbn; lia).
  change (Z.to_nat sizeof_int32_t) with 4%nat.
  cbn [Z.eqb Pos.eqb negb].
  rewrite ntohl_of_read; [reflexivity | exact Hw |].
  rewrite length_take. lia.
Qed.

Lemma xdrstdio_getlong_inv (H : host) (lp : Z) (m : machine) :
  fst (fst (xdrstdio_getlong H lp m)) = TRUE ->
  exists a f, x_private (m_xdrs m) = Some a
              /\ io_files (m_io m) !! a = Some f
              /\ f_readable f = true
              /\ (4 <= length (file_rest f))%nat.
Proof.
  unfold xdrstdio_getlong.
  pose proof (fread_item_inv (store_long H lp) sizeof_int32_t
                (x_private (m_xdrs m)) (m_io m) ltac:(reflexivity)) as Hinv.
  destruct (fread _ _ _ _ _) as [[n mem] io]. cbn [fst] in Hinv.
  destruct (Z.eqb_spec n 1) as [->|Hn]; cbn [negb fst]; [|discriminate].
  intros _. exact (Hinv eq_refl).
Qed.

Lemma xdrstdio_destroy_open (m : machine) (a : positive) (f : FILE) :
  x_private (m_xdrs m) = Some a ->
  io_files (m_io m) !! a = Some f ->
  xdrstdio_destroy m
  = mkMachine (m_xdrs m)
      (io_set a (file_sync f) (io_log (io_fflush (Some a)) (m_io m))).
Proof.
  intros Hp Hf. unfold xdrstdio_destroy.
  rewrite Hp, (fflush_open a _ f Hf). reflexivity.
Qed.

(** The conversion of a decoded 32-bit quantity to [long]: the value
    itself where [long] is 32 bits wide, its zero extension where it is
    64 bits wide. *)
Lemma cast_long_low (H : host) (x : Z) :
  in_int32 x ->
  cast_long H (x mod 2 ^ 32)
  = match h_long H with
    | LONG32 => x
    | LONG64 => if x <? 0 then x + 2 ^ 32 else x
    end.
Proof.
  intros Hx. unfold cast_long, long_bits, sizeof_long.
  destruct (h_long H).
  - apply wrap_signed_int32, Hx.
  - pose proof (Z.mod_pos_bound x (2 ^ 32) ltac:(lia)) as Hr.
    rewrite wrap_signed_small by (cbn in *; lia).
    unfold in_int32, INT32_MIN, INT32_MAX in Hx.
    destruct (Z.ltb_spec x 0).
    + symmetry. apply (Z.mod_unique x (2 ^ 32) (-1)); lia.
    + apply Z.mod_small. lia.
Qed.

Lemma cast_long_unsigned_LONG64 (H : host) (u : Z) :
  h_long H = LONG64 -> 0 <= u < 2 ^ 32 -> cast_long H u = u.
Proof.
  intros Hl Hu. unfold cast_long, long_bits, sizeof_long. rewrite Hl.
  apply wrap_signed_small; cbn; lia.
Qed.

Lemma written_file_rest (data : list byte) :
  file_rest (file_after_seek (file_sync (file_after_write fresh_file data)) 0)
  = data.
Proof. unfold file_rest. cbn. apply overwrite_empty. Qed.

Lemma written_file_disk (data : list byte) :
  f_disk (file_after_seek (file_sync (file_after_write fresh_file data)) 0)
  = data.
Proof. cbn. apply overwrite_empty. Qed.

(** ** Round trip of a [long] (C1) *)

(** C1, as amended.  On a host whose [long] starts with its low 32 bits,
    put_long of a value representable in 32 bits into a fresh stream
    succeeds and writes its four big-endian bytes, and get_long from
    those bytes succeeds with the value converted from unsigned 32 bits
    to [long]: the original where [long] is 32 bits wide and for
    non-negative values, the original plus 2^32 for negative values
    where [long] is 64 bits wide.  Its low 32 bits are the original's. *)
Theorem put_then_get_low_word (H : host) (a : positive) (xdrs : XDR)
        (x lp0 : Z) :
  low_word_first H = true -> in_int32 x ->
  let v := match h_long H with
           | LONG32 => x
           | LONG64 => if x <? 0 then x + 2 ^ 32 else x
           end in
  put_then_get H a xdrs x lp0 = (TRUE, be_encode 4 x, TRUE, v)
  /\ wrap_signed 32 v = x.
Proof.
  intros Hw Hx v. split.
  - unfold put_then_get.
    rewrite !xdrstdio_create_eq.
    erewrite xdrstdio_putlong_ok;
      [| exact Hw | reflexivity | apply lookup_singleton_eq | reflexivity].
    erewrite xdrstdio_destroy_open; [| reflexivity | apply io_files_set].
    cbn [m_io m_xdrs].
    erewrite fseek_set_open; [| apply io_files_set | lia].
    rewrite xdrstdio_create_eq. cbn [m_io].
    erewrite xdrstdio_getlong_ok;
      [| exact Hw | reflexivity | apply io_files_set | reflexivity
       | rewrite written_file_rest, length_be_encode; lia].
    rewrite io_files_set, written_file_rest. cbn [from_option].
    rewrite written_file_disk.
    rewrite take_ge by (rewrite length_be_encode; lia).
    rewrite be_decode_encode. change (8 * Z.of_nat 4) with 32.
    rewrite cast_long_low by exact Hx. reflexivity.
  - subst v. destruct (h_long H); [apply wrap_signed_int32', Hx|].
    destruct (x <? 0); [|apply wrap_signed_int32', Hx].
    rewrite <- wrap_signed_idem.
    replace (x + 2 ^ 32) with (x + 1 * 2 ^ 32) by lia.
    rewrite Z.mod_add by lia. apply wrap_signed_int32, Hx.
Qed.

Lemma put_then_get_low_word_witness :
  low_word_first BE_ILP32 = true /\ in_int32 (- 2 ^ 31)
  /\ put_then_get BE_ILP32 1 stale_handle (- 2 ^ 31) 0
     = (TRUE, [x80; x00; x00; x00], TRUE, - 2 ^ 31).
Proof.
  split; [reflexivity|]. split; [split; discriminate|].
  apply (put_then_get_low_word BE_ILP32 1 stale_handle (- 2 ^ 31) 0).
  - reflexivity.
  - split; discriminate.
Defined.

(** C1 as stated fails where [long] is 64 bits wide: -1 comes back as
    4294967295. *)
Lemma put_then_get_minus_one_LE_LP64 :
  in_int32 (-1)
  /\ put_then_get LE_LP64 1 stale_handle (-1) 0
     = (TRUE, [xff; xff; xff; xff], TRUE, 4294967295)
  /\ 4294967295 <> -1.
Proof.
  split; [split; discriminate|]. split; [vm_compute; reflexivity|].
  discriminate.
Qed.

(** ** The value get_long stores (C2) *)

(** C2, as amended.  On a host whose [long] starts with its low 32 bits,
    whenever get_long succeeds four wire bytes were there and the value
    stored is those bytes read as a big-endian unsigned 32-bit integer
    and converted to [long]: zero-extended where [long] is 64 bits wide
    (never negative), wrapped to the signed value where it is 32 bits
    wide.  In both cases the low 32 bits are the wire bytes. *)
Theorem xdrstdio_getlong_value (H : host) (lp : Z) (m : machine) :
  low_word_first H = true ->
  fst (fst (xdrstdio_getlong H lp m)) = TRUE ->
  let w := wire_bytes m in
  let v := snd (fst (xdrstdio_getlong H lp m)) in
  length w = 4%nat
  /\ v = cast_long H (be_decode w)
  /\ v mod 2 ^ 32 = be_decode w
  /\ (h_long H = LONG64 -> v = be_decode w /\ 0 <= v < 2 ^ 32)
  /\ (h_long H = LONG32 -> v = wrap_signed 32 (be_decode w)).
Proof.
  intros Hw Hok w v.
  destruct (xdrstdio_getlong_inv H lp m Hok) as (a & f & Hp & Hf & Hr & Hl).
  assert (Ew : w = take 4 (file_rest f)).
  { subst w. unfold wire_bytes, stream_file, io_file. rewrite Hp, Hf.
    reflexivity. }
  assert (Lw : length w = 4%nat) by (rewrite Ew, length_take; lia).
  assert (Ev : v = cast_long H (be_decode w)).
  { subst v. rewrite (xdrstdio_getlong_ok H lp m a f Hw Hp Hf Hr Hl).
    rewrite Ew. reflexivity. }
  pose proof (be_decode_range w) as Hb. rewrite Lw in Hb.
  change (8 * Z.of_nat 4) with 32 in Hb.
  repeat split; trivial.
  - rewrite Ev. unfold cast_long.
    rewrite wrap_signed_low by (destruct (long_bits_cases H); lia).
    apply Z.mod_small, Hb.
  - rewrite Ev. apply cast_long_unsigned_LONG64; assumption.
  - rewrite Ev, cast_long_unsigned_LONG64 by assumption. lia.
  - rewrite Ev, cast_long_unsigned_LONG64 by assumption. lia.
  - intros E. rewrite Ev. unfold cast_long, long_bits, sizeof_long.
    rewrite E. reflexivity.
Qed.

Lemma xdrstdio_getlong_value_witness :
  low_word_first LE_ILP32 = true
  /\ fst (fst (xdrstdio_getlong LE_ILP32 0
                 (decode_stream 1 [xff; xff; xff; xfe]))) = TRUE
  /\ snd (fst (xdrstdio_getlong LE_ILP32 0
                 (decode_stream 1 [xff; xff; xff; xfe]))) = -2.
Proof.
  split; [reflexivity|]. split; [vm_compute; reflexivity|].
  pose proof (xdrstdio_getlong_value LE_ILP32 0
                (decode_stream 1 [xff; xff; xff; xfe])
                eq_refl ltac:(vm_compute; reflexivity)) as (_ & _ & _ & _ & E).
  rewrite (E eq_refl). vm_compute. reflexivity.
Defined.

(** C2 as stated fails where [long] is 64 bits wide: wire bytes with the
    top bit set decode to a positive [long], not to the negative 32-bit
    value sign-extended. *)
Lemma xdrstdio_getlong_zero_extends_LE_LP64 :
  let m := decode_stream 1 [xff; xff; xff; xff] in
  let r := xdrstdio_getlong LE_LP64 0 m in
  fst (fst r) = TRUE
  /\ wire_bytes m = [xff; xff; xff; xff]
  /\ wrap_signed 32 (be_decode (wire_bytes m)) = -1
  /\ snd (fst r) = 4294967295
  /\ snd (fst r) <> wrap_signed 32 (be_decode (wire_bytes m)).
Proof. vm_compute. repeat split; discriminate. Qed.

(** ** The bytes put_long writes (C3) *)

(** On the hosts whose [long] starts with its low 32 bits put_long(1)
    writes 00 00 00 01. *)
Lemma xdrstdio_putlong_one_low_word (H : host) (a : positive) :
  low_word_first H = true ->
  let r := xdrstdio_putlong H 1 (encode_stream a) in
  fst r = TRUE /\ stream_view (snd r) = [x00; x00; x00; x01].
Proof.
  intros Hw. unfold encode_stream. rewrite xdrstdio_create_eq.
  erewrite xdrstdio_putlong_ok;
    [| exact Hw | reflexivity | apply lookup_singleton_eq | reflexivity].
  split; [reflexivity|].
  unfold stream_view, stream_file, io_file. cbn [snd m_xdrs m_io x_private].
  rewrite io_files_set. reflexivity.
Qed.

(** C3.  On a big-endian host with a 64-bit [long], put_long(1) reports
    success and writes 00 00 00 00: fwrite takes the first four bytes of
    the eight-byte mycopy, its high half. *)
Theorem xdrstdio_putlong_one_BE_LP64 :
  let r := xdrstdio_putlong BE_LP64 1 (encode_stream 1) in
  fst r = TRUE
  /\ stream_view (snd r) = [x00; x00; x00; x00]
  /\ stream_view (snd r) <> [x00; x00; x00; x01].
Proof. vm_compute. repeat split; discriminate. Qed.

(** The same for every value: on that host the bytes written do not
    depend on the value put. *)
Lemma xdrstdio_putlong_BE_LP64 (x : Z) (m : machine) (a : positive)
      (f : FILE) :
  x_private (m_xdrs m) = Some a ->
  io_files (m_io m) !! a = Some f -> f_writable f = true ->
  xdrstdio_putlong BE_LP64 x m
  = (TRUE,
     mkMachine (m_xdrs m)
       (io_set a (file_after_write f [x00; x00; x00; x00])
               (io_log (io_fwrite (Some a) 4 1) (m_io m)))).
Proof.
  intros Hp Hf Hfw. unfold xdrstdio_putlong. rewrite Hp.
  rewrite (fwrite_one_item _ _ a _ f Hf Hfw)
    by (rewrite ?length_store_long; pose proof (sizeof_long_ge_4 BE_LP64);
        unfold sizeof_int32_t; lia).
  change (Z.to_nat sizeof_int32_t) with 4%nat.
  rewrite mycopy_prefix_BE_LP64. reflexivity.
Qed.

(** There the four bytes fread stores are the high half of [*lp], and
    the value get_long computes is the low half [*lp] had before the
    call, whatever the wire bytes. *)
Lemma ntohl_of_read_BE_LP64 (w : list byte) (lp : Z) :
  length w = 4%nat ->
  cast_long BE_LP64
    (ntohl BE_LP64
       (cast_u_int32_t
          (load_long BE_LP64 (w ++ drop 4 (store_long BE_LP64 lp)))))
  = lp mod 2 ^ 32.
Proof.
  intros Hl. unfold load_long, ntohl, cast_u_int32_t, store_long,
    host_encode, host_decode.
  change (h_endian BE_LP64) with BigEndian. cbv iota.
  change (sizeof_long BE_LP64) with (4 + 4)%nat.
  change (long_bits BE_LP64) with 64.
  rewrite drop_be_encode.
  rewrite take_ge by (rewrite length_app, length_be_encode; lia).
  rewrite wrap_signed_low by lia.
  rewrite be_decode_app, length_be_encode, be_decode_encode.
  change (8 * Z.of_nat 4) with 32.
  rewrite (Z.mul_comm (2 ^ 32)), Z.mod_add by lia.
  rewrite Z.mod_mod by lia.
  rewrite be_decode_encode. change (8 * Z.of_nat 4) with 32.
  rewrite Z.mod_mod by lia.
  pose proof (Z.mod_pos_bound lp (2 ^ 32) ltac:(lia)) as Hr.
  apply (cast_long_unsigned_LONG64 BE_LP64); [reflexivity | exact Hr].
Qed.

Lemma xdrstdio_getlong_BE_LP64 (lp : Z) (m : machine) (a : positive)
      (f : FILE) :
  x_private (m_xdrs m) = Some a ->
  io_files (m_io m) !! a = Some f -> f_readable f = true ->
  (4 <= length (file_rest f))%nat ->
  xdrstdio_getlong BE_LP64 lp m
  = (TRUE, lp mod 2 ^ 32,
     mkMachine (m_xdrs m)
       (io_set a (file_after_read f 4 4)
               (io_log (io_fread (Some a) 4 1) (m_io m)))).
Proof.
  intros Hp Hf Hfr Hl. unfold xdrstdio_getlong. rewrite Hp.
  rewrite (fread_one_item _ _ a _ f Hf Hfr)
    by (unfold sizeof_int32_t; cbn; lia).
  change (Z.to_nat sizeof_int32_t) with 4%nat.
  cbn [Z.eqb Pos.eqb negb].
  rewrite ntohl_of_read_BE_LP64; [reflexivity|].
  rewrite length_take. lia.
Qed.

Lemma xdrstdio_getlong_one_BE_LP64 :
  fst (xdrstdio_getlong BE_LP64 77 (decode_stream 1 [x00; x00; x00; x01]))
  = (TRUE, 77).
Proof. vm_compute. reflexivity. Qed.

(** ** Zero-length byte blocks (C4) *)

(** C4.  For every handle, stream state and buffer, get_bytes and
    put_bytes of length 0 return TRUE and leave the buffer and the whole
    state as they were: no libc call is issued, so the position, the
    contents and the call trace are unchanged. *)
Theorem zero_length_bytes_noop (addr : list byte) (m : machine) :
  xdrstdio_getbytes addr 0 m = (TRUE, addr, m)
  /\ xdrstdio_putbytes addr 0 m = (TRUE, m).
Proof. split; reflexivity. Qed.

(** The guard matters: fread and fwrite of a zero-size item return 0,
    which the comparison with 1 would turn into a failure. *)
Lemma fread_zero_size (buf : list byte) (fp : ptr) (io : stdio) :
  fst (fst (fread buf 0 1 fp io)) = 0.
Proof.
  unfold fread. destruct fp as [a|]; [|reflexivity].
  destruct (io_files io !! a) as [f|]; [|reflexivity].
  destruct (f_readable f); reflexivity.
Qed.

(** ** Short reads (C5) *)

(** C5.  When fewer than four bytes are left in the stream (or the
    handle has no readable stream at all) get_long returns FALSE.  What
    it leaves in [*lp] is not a decoded value: it is the [long] that was
    there with its first bytes replaced by the bytes that were left,
    in host order and unconverted. *)
Theorem xdrstdio_getlong_short (H : host) (lp : Z) (m : machine) :
  (bytes_remaining m < 4)%nat ->
  let r := xdrstdio_getlong H lp m in
  fst (fst r) = FALSE
  /\ snd (fst r)
     = load_long H (partial_item m
                      ++ drop (length (partial_item m)) (store_long H lp)).
Proof.
  intros Hrem r. subst r.
  unfold xdrstdio_getlong, fread, partial_item.
  unfold bytes_remaining in Hrem. unfold stream_file, io_file in *.
  destruct (x_private (m_xdrs m)) as [a|]; [|split; reflexivity].
  destruct (io_files (m_io m) !! a) as [f|]; [|split; reflexivity].
  destruct (f_readable f); [|split; reflexivity].
  change (Z.to_nat (sizeof_int32_t * 1)) with 4%nat.
  rewrite take_ge by lia.
  change (sizeof_int32_t =? 0) with false. cbv iota.
  rewrite Z.div_small by (unfold sizeof_int32_t; lia).
  split; reflexivity.
Qed.

Lemma xdrstdio_getlong_short_witness :
  (bytes_remaining (decode_stream 1 [x12; x34; x56]) < 4)%nat
  /\ fst (xdrstdio_getlong LE_LP64 0 (decode_stream 1 [x12; x34; x56]))
     = (FALSE, 5649426).
Proof.
  assert (Hrem : (bytes_remaining (decode_stream 1 [x12; x34; x56]) < 4)%nat)
    by (vm_compute; lia).
  split; [exact Hrem|].
  destruct (xdrstdio_getlong_short LE_LP64 0
              (decode_stream 1 [x12; x34; x56]) Hrem) as [E1 E2].
  rewrite (surjective_pairing (fst (xdrstdio_getlong _ _ _))), E1, E2.
  vm_compute. reflexivity.
Defined.

(** ** Positions (C6) *)

Lemma xdrstdio_getpos_open (H : host) (m : machine) (a : positive)
      (f : FILE) :
  x_private (m_xdrs m) = Some a ->
  io_files (m_io m) !! a = Some f -> f_pos f <= LONG_MAX H ->
  xdrstdio_getpos H m
  = (cast_u_int (f_pos f),
     mkMachine (m_xdrs m) (io_log (io_ftell (Some a)) (m_io m))).
Proof.
  intros Hp Hf Hle. unfold xdrstdio_getpos.
  rewrite Hp, (ftell_open H a _ f Hf Hle). reflexivity.
Qed.

Lemma LONG_MAX_cases (H : host) :
  (h_long H = LONG32 /\ LONG_MAX H = 2 ^ 31 - 1)
  \/ (h_long H = LONG64 /\ LONG_MAX H = 2 ^ 63 - 1).
Proof.
  unfold LONG_MAX, long_bits, sizeof_long.
  destruct (h_long H); [left | right]; split; reflexivity.
Qed.

(** With a 32-bit [long], a position in the upper half of the u_int
    range is a negative offset to fseek. *)
Lemma xdrstdio_setpos_high_LONG32 (H : host) (pos : Z) (m : machine) :
  h_long H = LONG32 -> 2 ^ 31 <= pos < 2 ^ 32 ->
  fst (xdrstdio_setpos H pos m) = FALSE.
Proof.
  intros Hl Hpos. unfold xdrstdio_setpos.
  assert (Hneg : cast_long H pos < 0).
  { unfold cast_long, long_bits, sizeof_long, wrap_signed. rewrite Hl.
    change (8 * Z.of_nat 4) with 32. rewrite Z.mod_small by lia.
    destruct (Z.ltb_spec pos (2 ^ (32 - 1))) as [Hlt|_];
      [change (2 ^ (32 - 1)) with (2 ^ 31) in Hlt|]; lia. }
  rewrite (fseek_set_negative _ _ _ Hneg). reflexivity.
Qed.

(** C6, as amended.  When get_pos is called at a file offset that fits
    the host's [long], the position p it returns is that offset modulo
    2^32; on the same open stream, in whatever state it is later,
    set_pos(p) succeeds, leaves the file at offset p, and get_pos then
    returns p.  The offset get_pos was called at is restored only when
    it is below 2^32. *)
Theorem setpos_getpos_roundtrip (H : host) (m m' : machine) (a : positive)
        (f : FILE) :
  x_private (m_xdrs m) = Some a ->
  io_files (m_io m) !! a = Some f ->
  0 <= f_pos f <= LONG_MAX H ->
  x_private (m_xdrs m') = Some a ->
  is_Some (io_files (m_io m') !! a) ->
  let p := fst (xdrstdio_getpos H m) in
  let r := xdrstdio_setpos H p m' in
  p = f_pos f mod 2 ^ 32
  /\ fst r = TRUE
  /\ f_pos <$> stream_file (snd r) = Some p
  /\ fst (xdrstdio_getpos H (snd r)) = p
  /\ (f_pos f < 2 ^ 32 -> p = f_pos f).
Proof.
  intros Hp Hf Hpos Hp' [f' Hf'] p r.
  assert (Ep : p = f_pos f mod 2 ^ 32).
  { subst p. rewrite (xdrstdio_getpos_open H m a f Hp Hf) by lia.
    reflexivity. }
  pose proof (Z.mod_pos_bound (f_pos f) (2 ^ 32) ltac:(lia)) as Hr.
  assert (Ec : cast_long H p = p /\ p <= LONG_MAX H).
  { unfold cast_long.
    destruct (LONG_MAX_cases H) as [[El Em]|[El Em]];
      unfold long_bits, sizeof_long; rewrite El.
    - assert (p = f_pos f) by (rewrite Ep; apply Z.mod_small; lia).
      split; [apply wrap_signed_small; cbn; lia | lia].
    - split; [apply wrap_signed_small; cbn; lia | lia]. }
  destruct Ec as [Ec Ele].
  assert (Er : r = (TRUE,
                    mkMachine (m_xdrs m')
                      (io_set a (file_after_seek f' p)
                         (io_log (io_fseek (Some a) p 0) (m_io m'))))).
  { subst r. unfold xdrstdio_setpos. rewrite Hp', Ec.
    rewrite (fseek_set_open a p _ f' Hf') by lia. reflexivity. }
  rewrite Er. cbn [fst snd].
  repeat split; trivial.
  - unfold stream_file, io_file. cbn [m_xdrs m_io]. rewrite Hp'.
    rewrite io_files_set. reflexivity.
  - erewrite xdrstdio_getpos_open;
      [| exact Hp' | apply io_files_set | exact Ele].
    cbn [fst f_pos file_after_seek]. unfold cast_u_int.
    rewrite Ep. apply Z.mod_mod. lia.
  - intros Hlt. rewrite Ep. apply Z.mod_small. lia.
Qed.

Lemma setpos_getpos_roundtrip_witness :
  let p := fst (xdrstdio_getpos LE_LP64 (stream_at 1 (2 ^ 32 + 5))) in
  let r := xdrstdio_setpos LE_LP64 p (stream_at 1 (2 ^ 32 + 5)) in
  0 <= 2 ^ 32 + 5 <= LONG_MAX LE_LP64
  /\ p = 5 /\ fst r = TRUE /\ fst (xdrstdio_getpos LE_LP64 (snd r)) = p.
Proof.
  assert (Hb : 0 <= 2 ^ 32 + 5 <= LONG_MAX LE_LP64) by (split; discriminate).
  pose proof (setpos_getpos_roundtrip LE_LP64
                (stream_at 1 (2 ^ 32 + 5)) (stream_at 1 (2 ^ 32 + 5)) 1
                (mkFILE true true [] [] (2 ^ 32 + 5) false false)
                eq_refl ltac:(vm_compute; reflexivity) Hb eq_refl
                ltac:(vm_compute; eauto))
    as (E1 & E2 & _ & E4 & _).
  intros p r. repeat split; try exact E2; try exact E4; try discriminate.
Defined.

(** C6 as stated fails at an offset wider than the position type.  On a
    host with a 32-bit [long] ftell cannot report offset 2^32: get_pos
    returns (u_int)-1 and set_pos of that position fails.  On a host
    with a 64-bit [long], at offset 2^32+5 get_pos returns 5 and set_pos
    succeeds, but it leaves the file at offset 5, not where get_pos was
    called. *)
Lemma wide_offset_not_round_tripped :
  (let m := stream_at 1 (2 ^ 32) in
   let p := fst (xdrstdio_getpos LE_ILP32 m) in
   f_pos <$> stream_file m = Some 4294967296
   /\ p = 4294967295
   /\ fst (xdrstdio_setpos LE_ILP32 p (snd (xdrstdio_getpos LE_ILP32 m)))
      = FALSE)
  /\ (let m := stream_at 1 (2 ^ 32 + 5) in
      let p := fst (xdrstdio_getpos LE_LP64 m) in
      let r := xdrstdio_setpos LE_LP64 p (snd (xdrstdio_getpos LE_LP64 m)) in
      f_pos <$> stream_file m = Some 4294967301
      /\ p = 5
      /\ fst r = TRUE
      /\ f_pos <$> stream_file (snd r) = Some 5
      /\ f_pos <$> stream_file (snd r) <> f_pos <$> stream_file m).
Proof. vm_compute. repeat split; discriminate. Qed.

(** ** Destroy (C7) *)

(** C7.  For every handle on an open stream, whatever was done on it
    before, destroy carries the contents seen through the stream over to
    the underlying file and changes nothing else: the handle is as it
    was, the stream is still in the table of open streams with its
    access mode, position and contents, and no stream is removed from
    the table. *)
Theorem xdrstdio_destroy_flushes (m : machine) (a : positive) (f : FILE) :
  x_private (m_xdrs m) = Some a ->
  io_files (m_io m) !! a = Some f ->
  let m' := xdrstdio_destroy m in
  m_xdrs m' = m_xdrs m
  /\ stream_file m' = Some (file_sync f)
  /\ stream_disk m' = stream_view m
  /\ stream_view m' = stream_view m
  /\ (forall b, is_Some (io_files (m_io m') !! b)
                <-> is_Some (io_files (m_io m) !! b))
  /\ io_trace (m_io m') = io_trace (m_io m) ++ [io_fflush (Some a)].
Proof.
  intros Hp Hf m'. subst m'. rewrite (xdrstdio_destroy_open m a f Hp Hf).
  unfold stream_disk, stream_view, stream_file, io_file.
  cbn [m_xdrs m_io]. rewrite Hp, io_files_set, Hf.
  repeat split; trivial.
  - cbn [io_set io_log io_files]. intros Hb.
    destruct (decide (a = b)) as [<-|Hne]; [eauto|].
    rewrite lookup_insert_ne in Hb by exact Hne. exact Hb.
  - cbn [io_set io_log io_files]. intros Hb.
    destruct (decide (a = b)) as [<-|Hne].
    + rewrite lookup_insert_eq. eauto.
    + rewrite lookup_insert_ne by exact Hne. exact Hb.
Qed.

Lemma xdrstdio_destroy_flushes_witness :
  let m := snd (xdrstdio_putlong LE_LP64 1 (encode_stream 1)) in
  stream_disk m = []
  /\ stream_disk (xdrstdio_destroy m) = [x00; x00; x00; x01]
  /\ is_Some (stream_file (xdrstdio_destroy m)).
Proof.
  intros m.
  pose proof (xdrstdio_destroy_flushes m 1
                (mkFILE true true [x00; x00; x00; x01] [] 4 false false)
                eq_refl ltac:(vm_compute; reflexivity))
    as (_ & E2 & E3 & _).
  split; [vm_compute; reflexivity|]. split.
  - rewrite E3. vm_compute. reflexivity.
  - rewrite E2. eauto.
Defined.

(** What put_long wrote before destroy is in the underlying file after
    it, at the offset it was written at. *)
Lemma xdrstdio_putlong_destroy_on_disk (H : host) (x : Z) (m : machine)
      (a : positive) (f : FILE) :
  low_word_first H = true ->
  x_private (m_xdrs m) = Some a ->
  io_files (m_io m) !! a = Some f -> f_writable f = true ->
  take 4 (drop (Z.to_nat (f_pos f))
            (stream_disk
               (xdrstdio_destroy (snd (xdrstdio_putlong H x m)))))
  = be_encode 4 x.
Proof.
  intros Hw Hp Hf Hfw.
  rewrite (xdrstdio_putlong_ok H x m a f Hw Hp Hf Hfw). cbn [snd].
  erewrite xdrstdio_destroy_open; [| exact Hp | apply io_files_set].
  unfold stream_disk, stream_file, io_file. cbn [m_xdrs m_io].
  rewrite Hp, io_files_set.
  cbn [from_option file_sync f_disk f_view file_after_write].
  rewrite <- (length_be_encode 4 x) at 1. apply overwrite_read_back.
Qed.

(** ** The handle (C8, C10) *)

Lemma xdr_invoke_handle (H : host) (c : xdr_call) (m : machine) :
  m_xdrs (snd (xdr_invoke H c m)) = m_xdrs m.
Proof.
  unfold xdr_invoke. destruct (x_ops (m_xdrs m)) as [[]|]; [|reflexivity].
  destruct c; cbn [deref_ops xdrstdio_ops x_getlong x_putlong x_getbytes
                   x_putbytes x_getpostn x_setpostn x_inline x_destroy].
  - unfold xdrstdio_getlong. destruct (fread _ _ _ _ _) as [[n mem] io].
    destruct (negb _); reflexivity.
  - unfold xdrstdio_putlong. destruct (fwrite _ _ _ _ _) as [n io].
    destruct (negb _); reflexivity.
  - unfold xdrstdio_getbytes. destruct (negb (len =? 0)); [|reflexivity].
    destruct (fread _ _ _ _ _) as [[n mem] io].
    destruct (negb _); reflexivity.
  - unfold xdrstdio_putbytes. destruct (negb (len =? 0)); [|reflexivity].
    destruct (fwrite _ _ _ _ _) as [n io].
    destruct (negb _); reflexivity.
  - unfold xdrstdio_getpos. destruct (ftell _ _ _) as [r io]. reflexivity.
  - unfold xdrstdio_setpos. destruct (fseek _ _ _ _) as [r io]. reflexivity.
  - reflexivity.
  - unfold xdrstdio_destroy. destruct (fflush _ _) as [r io]. reflexivity.
Qed.

Lemma xdr_run_handle (H : host) (cs : list xdr_call) (m : machine) :
  m_xdrs (xdr_run H cs m) = m_xdrs m.
Proof.
  revert m; induction cs as [|c cs IH]; intros m; [reflexivity|].
  cbn [xdr_run]. rewrite IH. apply xdr_invoke_handle.
Qed.

(** C8.  create sets the mode to [op], the ops field to the address of
    xdrstdio_ops, the backend state to the caller's file and the scratch
    fields to NULL and 0; after any sequence of operations of the
    contract on the handle the mode and the ops field (as every other
    field) are what create set them to. *)
Theorem xdrstdio_create_fields (H : host) (file : ptr) (op : xdr_op)
        (m : machine) (cs : list xdr_call) :
  let h := m_xdrs (xdrstdio_create file op m) in
  let h' := m_xdrs (xdr_run H cs (xdrstdio_create file op m)) in
  x_op h = op
  /\ x_ops h = Some addr_xdrstdio_ops
  /\ deref_ops H addr_xdrstdio_ops = xdrstdio_ops H
  /\ x_private h = file
  /\ x_handy h = 0 /\ x_base h = 0
  /\ x_lib_0 h = NULL /\ x_lib_1 h = NULL /\ x_public h = NULL
  /\ x_op h' = op
  /\ x_ops h' = Some addr_xdrstdio_ops
  /\ h' = h.
Proof.
  intros h h'. assert (E : h' = h) by apply xdr_run_handle.
  rewrite E. subst h. rewrite xdrstdio_create_eq. cbn.
  repeat split; reflexivity.
Qed.

(** C10.  create returns nothing and cannot fail; the C library's state
    after it is the state before it: no call is issued, and every
    stream, the supplied one included, keeps its position and
    contents. *)
Theorem xdrstdio_create_no_io (file : ptr) (op : xdr_op) (m : machine) :
  m_io (xdrstdio_create file op m) = m_io m.
Proof. reflexivity. Qed.

(** ** Decoding never writes (C9) *)

Lemma io_contents_set (a : positive) (f f' : FILE) (io : stdio) :
  io_files io !! a = Some f -> file_contents f' = file_contents f ->
  io_contents (io_set a f' io) = io_contents io.
Proof.
  intros Hf Hc. unfold io_contents, io_set. cbn [io_files].
  rewrite fmap_insert. apply insert_id.
  rewrite lookup_fmap, Hf, Hc. reflexivity.
Qed.

Lemma fread_quiet (buf : list byte) (size nmemb : Z) (fp : ptr)
      (io : stdio) :
  let io' := snd (fread buf size nmemb fp io) in
  io_contents io' = io_contents io
  /\ io_trace io' = io_trace io ++ [io_fread fp size nmemb].
Proof.
  unfold fread. destruct fp as [a|]; [|split; reflexivity].
  destruct (io_files io !! a) as [f|] eqn:Hf; [|split; reflexivity].
  destruct (f_readable f); cbn [snd]; split; try reflexivity;
    change (io_contents io)
      with (io_contents (io_log (io_fread (Some a) size nmemb) io));
    apply (io_contents_set a f); trivial.
Qed.

Lemma ftell_quiet (H : host) (fp : ptr) (io : stdio) :
  let io' := snd (ftell H fp io) in
  io_contents io' = io_contents io
  /\ io_trace io' = io_trace io ++ [io_ftell fp].
Proof.
  unfold ftell. destruct (io_file fp io); split; reflexivity.
Qed.

Lemma quiet_step_refl (io : stdio) : quiet_step io io.
Proof. split; [reflexivity|]. exists []. rewrite app_nil_r. auto. Qed.

Lemma quiet_step_trans (io1 io2 io3 : stdio) :
  quiet_step io1 io2 -> quiet_step io2 io3 -> quiet_step io1 io3.
Proof.
  intros [C1 (e1 & T1 & Q1)] [C2 (e2 & T2 & Q2)]. split; [congruence|].
  exists (e1 ++ e2). rewrite T2, T1, <- app_assoc. split; [reflexivity|].
  rewrite forallb_app, Q1, Q2. reflexivity.
Qed.

Lemma quiet_step_one (io io' : stdio) (c : io_call) :
  io_contents io' = io_contents io /\ io_trace io' = io_trace io ++ [c] ->
  io_is_query c = true -> quiet_step io io'.
Proof.
  intros [C T] Q. split; [exact C|]. exists [c]. split; [exact T|].
  cbn. rewrite Q. reflexivity.
Qed.

Lemma xdr_invoke_get_quiet (H : host) (c : xdr_call) (m : machine) :
  is_get c = true -> quiet_step (m_io m) (m_io (snd (xdr_invoke H c m))).
Proof.
  intros Hg. unfold xdr_invoke.
  destruct (x_ops (m_xdrs m)) as [[]|]; [|apply quiet_step_refl].
  destruct c; try discriminate Hg;
    cbn [deref_ops xdrstdio_ops x_getlong x_getbytes x_getpostn].
  - unfold xdrstdio_getlong.
    pose proof (fread_quiet (store_long H lp) sizeof_int32_t 1
                  (x_private (m_xdrs m)) (m_io m)) as Hq.
    destruct (fread _ _ _ _ _) as [[n mem] io]. cbn [snd] in Hq.
    destruct (negb _); cbn [snd m_io];
      exact (quiet_step_one _ _ _ Hq eq_refl).
  - unfold xdrstdio_getbytes.
    destruct (negb (len =? 0)); [|apply quiet_step_refl].
    pose proof (fread_quiet addr len 1 (x_private (m_xdrs m)) (m_io m))
      as Hq.
    destruct (fread _ _ _ _ _) as [[n mem] io]. cbn [snd] in Hq.
    destruct (negb _); cbn [snd m_io];
      exact (quiet_step_one _ _ _ Hq eq_refl).
  - unfold xdrstdio_getpos.
    pose proof (ftell_quiet H (x_private (m_xdrs m)) (m_io m)) as Hq.
    destruct (ftell _ _ _) as [r io]. cbn [snd] in Hq. cbn [snd m_io].
    exact (quiet_step_one _ _ _ Hq eq_refl).
Qed.

Lemma xdr_run_gets_quiet (H : host) (cs : list xdr_call) (m : machine) :
  forallb is_get cs = true -> quiet_step (m_io m) (m_io (xdr_run H cs m)).
Proof.
  revert m; induction cs as [|c cs IH]; intros m Hg.
  - apply quiet_step_refl.
  - cbn [forallb] in Hg. apply andb_prop in Hg as [Hc Hcs].
    cbn [xdr_run].
    eapply quiet_step_trans; [apply xdr_invoke_get_quiet, Hc | apply IH, Hcs].
Qed.

(** C9.  On a handle created in DECODE mode, a run of get operations
    only (get_long, get_bytes, get_pos) leaves the contents of every
    file as they were, both as seen through the stream and underneath,
    and the libc calls it issues are fread and ftell calls only. *)
Theorem decode_gets_never_write (H : host) (file : ptr) (m : machine)
        (cs : list xdr_call) :
  forallb is_get cs = true ->
  let m' := xdr_run H cs (xdrstdio_create file XDR_DECODE m) in
  x_op (m_xdrs m') = XDR_DECODE
  /\ io_contents (m_io m') = io_contents (m_io m)
  /\ exists evs, io_trace (m_io m') = io_trace (m_io m) ++ evs
                 /\ forallb io_is_query evs = true.
Proof.
  intros Hg m'. split.
  - subst m'. rewrite xdr_run_handle. reflexivity.
  - exact (xdr_run_gets_quiet H cs (xdrstdio_create file XDR_DECODE m) Hg).
Qed.

Lemma decode_gets_never_write_witness :
  let cs := [XDR_GETLONG 0; XDR_GETPOS; XDR_GETBYTES [x00; x00] 2;
             XDR_GETLONG 0] in
  let m := mkMachine stale_handle
             (mkStdio {[1%positive :=
                          read_only_file [x00; x00; x00; x2a; x61; x62]]}
                      []) in
  forallb is_get cs = true
  /\ io_contents
       (m_io (xdr_run LE_LP64 cs
                (xdrstdio_create (Some 1%positive) XDR_DECODE m)))
     = io_contents (m_io m).
Proof.
  intros cs m. split; [reflexivity|].
  exact (proj1 (proj2 (decode_gets_never_write LE_LP64 (Some 1%positive)
                          m cs eq_refl))).
Defined.

(** ** Further properties of the operations *)

Lemma overwrite_prefix (old data : list byte) (pos : nat) :
  (pos <= length old)%nat -> take pos (overwrite old pos data) = take pos old.
Proof.
  intros Hp. unfold overwrite.
  replace (pos - length old)%nat with 0%nat by lia.
  cbn [replicate]. rewrite app_nil_r.
  rewrite take_app_le by (rewrite length_take; lia).
  rewrite take_take. f_equal. lia.
Qed.

Lemma overwrite_suffix (old data : list byte) (pos : nat) :
  drop (pos + length data) (overwrite old pos data)
  = drop (pos + length data) old.
Proof.
  unfold overwrite.
  assert (Hl : length (take pos (old ++ replicate (pos - length old) x00))
               = pos).
  { rewrite length_take, length_app, length_replicate. lia. }
  rewrite <- Hl at 1. rewrite <- drop_drop, drop_app_length.
  apply drop_app_length.
Qed.

Lemma length_overwrite (old data : list byte) (pos : nat) :
  length (overwrite old pos data)
  = Nat.max (length old) (pos + length data).
Proof.
  unfold overwrite.
  rewrite !length_app, length_take, length_app, length_replicate, length_drop.
  lia.
Qed.

Lemma overwrite_at_end (old data : list byte) :
  overwrite old (length old) data = old ++ data.
Proof.
  unfold overwrite. rewrite Nat.sub_diag. cbn [replicate].
  rewrite app_nil_r, firstn_all, drop_ge by lia. rewrite app_nil_r.
  reflexivity.
Qed.

Lemma cast_long_nonneg (H : host) (pos : Z) :
  0 <= pos <= LONG_MAX H -> cast_long H pos = pos.
Proof.
  intros Hp. unfold cast_long. unfold LONG_MAX in Hp.
  apply wrap_signed_small; [destruct (long_bits_cases H); lia | lia].
Qed.

Lemma xdrstdio_setpos_ok (H : host) (pos : Z) (m : machine) (a : positive)
      (f : FILE) :
  x_private (m_xdrs m) = Some a ->
  io_files (m_io m) !! a = Some f ->
  0 <= pos <= LONG_MAX H ->
  xdrstdio_setpos H pos m
  = (TRUE,
     mkMachine (m_xdrs m)
       (io_set a (file_after_seek f pos)
               (io_log (io_fseek (Some a) pos 0) (m_io m)))).
Proof.
  intros Hp Hf Hpos. unfold xdrstdio_setpos.
  rewrite Hp, cast_long_nonneg by exact Hpos.
  rewrite (fseek_set_open a pos _ f Hf) by lia. reflexivity.
Qed.

Lemma xdrstdio_putbytes_ok (addr : list byte) (len : Z) (m : machine)
      (a : positive) (f : FILE) :
  x_private (m_xdrs m) = Some a ->
  io_files (m_io m) !! a = Some f -> f_writable f = true ->
  0 < len -> (Z.to_nat len <= length addr)%nat ->
  xdrstdio_putbytes addr len m
  = (TRUE,
     mkMachine (m_xdrs m)
       (io_set a (file_after_write f (take (Z.to_nat len) addr))
               (io_log (io_fwrite (Some a) len 1) (m_io m)))).
Proof.
  intros Hp Hf Hw Hlen Hl. unfold xdrstdio_putbytes.
  destruct (Z.eqb_spec len 0) as [|_]; [lia|]. cbn [negb].
  rewrite Hp, (fwrite_one_item addr len a _ f Hf Hw Hlen Hl). reflexivity.
Qed.

Lemma xdrstdio_getbytes_ok (addr : list byte) (len : Z) (m : machine)
      (a : positive) (f : FILE) :
  x_private (m_xdrs m) = Some a ->
  io_files (m_io m) !! a = Some f -> f_readable f = true ->
  0 < len -> (Z.to_nat len <= length (file_rest f))%nat ->
  xdrstdio_getbytes addr len m
  = (TRUE,
     take (Z.to_nat len) (file_rest f) ++ drop (Z.to_nat len) addr,
     mkMachine (m_xdrs m)
       (io_set a (file_after_read f (Z.to_nat len) (Z.to_nat len))
               (io_log (io_fread (Some a) len 1) (m_io m)))).
Proof.
  intros Hp Hf Hr Hlen Hl. unfold xdrstdio_getbytes.
  destruct (Z.eqb_spec len 0) as [|_]; [lia|]. cbn [negb].
  rewrite Hp, (fread_one_item addr len a _ f Hf Hr Hlen Hl). reflexivity.
Qed.

Lemma file_rest_after_write_seek (f : FILE) (data : list byte) :
  take (length data)
       (file_rest (file_after_seek (file_after_write f data) (f_pos f)))
  = data.
Proof.
  unfold file_rest. cbn [file_after_seek file_after_write f_pos f_view].
  apply overwrite_read_back.
Qed.

Lemma stream_file_set (xdrs : XDR) (a : positive) (f : FILE) (io : stdio) :
  x_private xdrs = Some a ->
  stream_file (mkMachine xdrs (io_set a f io)) = Some f.
Proof.
  intros Hp. unfold stream_file, io_file. cbn [m_xdrs m_io].
  rewrite Hp. apply io_files_set.
Qed.

(** X1.  On every host, for a handle on an open stream, get_long returns
    TRUE exactly when the stream is open for reading and at least four
    bytes are left.  In either case it consumes the four bytes or, when
    fewer are left, all of them, changes neither the contents of the
    file nor the handle, and raises the end-of-file indicator only on a
    short read. *)
Theorem xdrstdio_getlong_succeeds_iff (H : host) (lp : Z) (m : machine)
        (a : positive) (f : FILE) :
  x_private (m_xdrs m) = Some a ->
  io_files (m_io m) !! a = Some f ->
  let r := xdrstdio_getlong H lp m in
  (fst (fst r) = TRUE
   <-> f_readable f = true /\ (4 <= length (file_rest f))%nat)
  /\ (f_readable f = true ->
      stream_file (snd r)
      = Some (file_after_read f (Nat.min 4 (length (file_rest f))) 4))
  /\ m_xdrs (snd r) = m_xdrs m.
Proof.
  intros Hp Hf r. subst r. unfold xdrstdio_getlong, fread.
  rewrite Hp, Hf. destruct (f_readable f).
  - change (Z.to_nat (sizeof_int32_t * 1)) with 4%nat.
    change (sizeof_int32_t =? 0) with false. cbv iota.
    rewrite length_take.
    destruct (Nat.le_gt_cases 4 (length (file_rest f))) as [Hle|Hgt].
    + rewrite Nat.min_l by exact Hle. cbn [Z.of_nat Pos.of_succ_nat].
      change (Z.of_nat 4 / sizeof_int32_t =? 1) with true. cbn [negb fst snd].
      split; [split; auto|]. split; [|reflexivity].
      intros _. apply stream_file_set, Hp.
    + rewrite Nat.min_r by lia.
      rewrite Z.div_small by (unfold sizeof_int32_t; lia).
      cbn [Z.eqb negb fst snd].
      split; [split; [discriminate | intros [_ Hle]; lia]|].
      split; [|reflexivity].
      intros _. apply stream_file_set, Hp.
  - cbn [Z.eqb negb fst snd]. split; [|split; [discriminate | reflexivity]].
    split; [discriminate | intros [Hr _]; discriminate Hr].
Qed.

Lemma xdrstdio_getlong_succeeds_iff_witness :
  let m := decode_stream 1 [x00; x00; x01; x00; xff] in
  fst (fst (xdrstdio_getlong BE_LP64 0 m)) = TRUE
  /\ f_pos <$> stream_file (snd (xdrstdio_getlong BE_LP64 0 m)) = Some 4.
Proof.
  intros m.
  destruct (xdrstdio_getlong_succeeds_iff BE_LP64 0 m 1
              (read_only_file [x00; x00; x01; x00; xff])
              eq_refl ltac:(vm_compute; reflexivity)) as (Hiff & Hst & _).
  split.
  - apply Hiff. split; [reflexivity | vm_compute; lia].
  - rewrite (Hst eq_refl). reflexivity.
Defined.

(** X2.  For a handle on an open stream, get_bytes of a length other
    than 0 returns TRUE exactly when the stream is open for reading and
    at least [len] bytes are left.  When the stream is readable the
    buffer receives the bytes read, as they are, at its start and keeps
    the rest of what it held, and the position moves by the number of
    bytes read, [len] or all that were left. *)
Theorem xdrstdio_getbytes_succeeds_iff (addr : list byte) (len : Z)
        (m : machine) (a : positive) (f : FILE) :
  x_private (m_xdrs m) = Some a ->
  io_files (m_io m) !! a = Some f ->
  0 < len ->
  let r := xdrstdio_getbytes addr len m in
  let n := Nat.min (Z.to_nat len) (length (file_rest f)) in
  (fst (fst r) = TRUE
   <-> f_readable f = true /\ (Z.to_nat len <= length (file_rest f))%nat)
  /\ (f_readable f = true ->
      snd (fst r) = take n (file_rest f) ++ drop n addr
      /\ stream_file (snd r) = Some (file_after_read f n (Z.to_nat len)))
  /\ (f_readable f = false -> snd (fst r) = addr).
Proof.
  intros Hp Hf Hlen r n. subst r n. unfold xdrstdio_getbytes, fread.
  destruct (Z.eqb_spec len 0) as [|Hne]; [lia|]. cbn [negb].
  rewrite Hp, Hf, Z.mul_1_r. destruct (f_readable f).
  - destruct (Z.eqb_spec len 0) as [|_]; [lia|].
    rewrite length_take.
    destruct (Nat.le_gt_cases (Z.to_nat len) (length (file_rest f)))
      as [Hle|Hgt].
    + rewrite Nat.min_l by exact Hle.
      rewrite Z2Nat.id, Z.div_same by lia. cbn [Z.eqb Pos.eqb negb fst snd].
      split; [split; auto|]. split; [|discriminate].
      intros _. split; [reflexivity | apply stream_file_set, Hp].
    + rewrite Nat.min_r by lia.
      rewrite Z.div_small by lia. cbn [Z.eqb negb fst snd].
      split; [split; [discriminate | intros [_ Hle]; lia]|].
      split; [|discriminate].
      intros _. rewrite !take_ge by lia.
      split; [reflexivity | apply stream_file_set, Hp].
  - cbn [Z.eqb negb fst snd].
    split; [split; [discriminate | intros [Hr _]; discriminate Hr]|].
    split; [discriminate | reflexivity].
Qed.

Lemma xdrstdio_getbytes_succeeds_iff_witness :
  let m := decode_stream 1 [x61; x62; x63] in
  0 < 2
  /\ xdrstdio_getbytes [x00; x00; x00] 2 m
     = (TRUE, [x61; x62; x00], snd (xdrstdio_getbytes [x00; x00; x00] 2 m))
  /\ fst (xdrstdio_getbytes [x00; x00; x00; x00] 4 m)
     = (FALSE, [x61; x62; x63; x00]).
Proof.
  intros m. split; [reflexivity|].
  destruct (xdrstdio_getbytes_succeeds_iff [x00; x00; x00] 2 m 1
              (read_only_file [x61; x62; x63])
              eq_refl ltac:(vm_compute; reflexivity) eq_refl)
    as (Hiff & Hst & _).
  split; [|vm_compute; reflexivity].
  destruct (xdrstdio_getbytes [x00; x00; x00] 2 m) as [[ok buf] m'] eqn:E.
  cbn [fst snd] in *.
  assert (Hok : ok = TRUE).
  { apply Hiff. split; [reflexivity | vm_compute; lia]. }
  rewrite Hok, (proj1 (Hst eq_refl)). reflexivity.
Defined.

(** X3.  put_bytes of [len] > 0 bytes from a buffer that holds them, on
    a stream open for writing and positioned within the file, returns
    TRUE and writes exactly those bytes, as they are, at the position:
    the bytes before the position and those from position + len on are
    what they were, the file has grown only as far as the block reaches
    past its end, and the position has moved by [len]. *)
Theorem xdrstdio_putbytes_effect (addr : list byte) (len : Z) (m : machine)
        (a : positive) (f : FILE) :
  x_private (m_xdrs m) = Some a ->
  io_files (m_io m) !! a = Some f -> f_writable f = true ->
  0 < len -> (Z.to_nat len <= length addr)%nat ->
  0 <= f_pos f -> (Z.to_nat (f_pos f) <= length (f_view f))%nat ->
  let r := xdrstdio_putbytes addr len m in
  let p := Z.to_nat (f_pos f) in
  let n := Z.to_nat len in
  fst r = TRUE
  /\ (exists f', stream_file (snd r) = Some f'
        /\ take p (f_view f') = take p (f_view f)
        /\ take n (drop p (f_view f')) = take n addr
        /\ drop (p + n) (f_view f') = drop (p + n) (f_view f)
        /\ length (f_view f') = Nat.max (length (f_view f)) (p + n)
        /\ f_pos f' = f_pos f + len).
Proof.
  intros Hp Hf Hw Hlen Hl Hpos Hin r p n. subst r p n.
  rewrite (xdrstdio_putbytes_ok addr len m a f Hp Hf Hw Hlen Hl).
  cbn [fst snd]. split; [reflexivity|].
  exists (file_after_write f (take (Z.to_nat len) addr)).
  assert (Ht : length (take (Z.to_nat len) addr) = Z.to_nat len)
    by (rewrite length_take; lia).
  split; [apply stream_file_set, Hp|].
  cbn [file_after_write f_view f_pos].
  repeat split.
  - apply overwrite_prefix, Hin.
  - pose proof (overwrite_read_back (f_view f) (take (Z.to_nat len) addr)
                  (Z.to_nat (f_pos f))) as Hb.
    rewrite Ht in Hb. exact Hb.
  - pose proof (overwrite_suffix (f_view f) (take (Z.to_nat len) addr)
                  (Z.to_nat (f_pos f))) as Hb.
    rewrite Ht in Hb. exact Hb.
  - rewrite length_overwrite, Ht. reflexivity.
  - rewrite Ht. lia.
Qed.

Lemma xdrstdio_putbytes_effect_witness :
  let r := xdrstdio_putbytes [x41; x42; x43] 2
             (update_stream 1 [x61; x62; x63; x64] 1) in
  fst r = TRUE /\ stream_view (snd r) = [x61; x41; x42; x64].
Proof.
  intros r.
  destruct (xdrstdio_putbytes_effect [x41; x42; x43] 2
              (update_stream 1 [x61; x62; x63; x64] 1) 1
              (mkFILE true true [x61; x62; x63; x64] [x61; x62; x63; x64]
                      1 false false)
              eq_refl ltac:(vm_compute; reflexivity) eq_refl eq_refl
              ltac:(vm_compute; lia) ltac:(discriminate)
              ltac:(vm_compute; lia))
    as (Hok & _).
  split; [exact Hok | vm_compute; reflexivity].
Defined.

(** X4.  Byte blocks go through unchanged: on a stream open for update
    whose position a u_int and the host's [long] can hold, put_bytes of
    [len] > 0 bytes, set_pos back to where they were written and
    get_bytes of [len] bytes all return TRUE, and the buffer receives
    the very bytes that were put, the rest of it left as it was. *)
Theorem putbytes_getbytes_roundtrip (H : host) (addr buf : list byte)
        (len : Z) (m : machine) (a : positive) (f : FILE) :
  x_private (m_xdrs m) = Some a ->
  io_files (m_io m) !! a = Some f ->
  f_readable f = true -> f_writable f = true ->
  0 < len -> (Z.to_nat len <= length addr)%nat ->
  0 <= f_pos f <= LONG_MAX H -> f_pos f < 2 ^ 32 ->
  let r1 := xdrstdio_putbytes addr len m in
  let r2 := xdrstdio_setpos H (f_pos f) (snd r1) in
  let r3 := xdrstdio_getbytes buf len (snd r2) in
  fst r1 = TRUE /\ fst r2 = TRUE
  /\ fst r3 = (TRUE, take (Z.to_nat len) addr ++ drop (Z.to_nat len) buf).
Proof.
  intros Hp Hf Hr Hw Hlen Hl Hpos _ r1 r2 r3. subst r1 r2 r3.
  rewrite (xdrstdio_putbytes_ok addr len m a f Hp Hf Hw Hlen Hl).
  cbn [fst snd].
  erewrite xdrstdio_setpos_ok; [| exact Hp | apply io_files_set | exact Hpos].
  cbn [fst snd m_xdrs m_io].
  assert (Ht : length (take (Z.to_nat len) addr) = Z.to_nat len)
    by (rewrite length_take; lia).
  pose proof (file_rest_after_write_seek f (take (Z.to_nat len) addr)) as Hb.
  rewrite Ht in Hb.
  erewrite xdrstdio_getbytes_ok;
    [| exact Hp | apply io_files_set | exact Hr | exact Hlen |].
  - cbn [fst]. rewrite Hb. auto.
  - apply (f_equal length) in Hb. rewrite !length_take in Hb. lia.
Qed.

Lemma putbytes_getbytes_roundtrip_witness :
  let m := update_stream 1 [x61; x62; x63; x64] 3 in
  let r1 := xdrstdio_putbytes [x41; x42; x43] 3 m in
  let r2 := xdrstdio_setpos LE_ILP32 3 (snd r1) in
  let r3 := xdrstdio_getbytes [x00; x00; x00; x00] 3 (snd r2) in
  fst r3 = (TRUE, [x41; x42; x43; x00])
  /\ stream_view (snd r3) = [x61; x62; x63; x41; x42; x43].
Proof.
  intros m r1 r2 r3.
  destruct (putbytes_getbytes_roundtrip LE_ILP32 [x41; x42; x43]
              [x00; x00; x00; x00] 3 m 1
              (mkFILE true true [x61; x62; x63; x64] [x61; x62; x63; x64]
                      3 false false)
              eq_refl ltac:(vm_compute; reflexivity) eq_refl eq_refl
              eq_refl ltac:(vm_compute; lia)
              ltac:(split; discriminate) eq_refl)
    as (_ & _ & E).
  split; [exact E | vm_compute; reflexivity].
Defined.




(** X6.  On every host and for every value, put_long on a handle whose
    stream is open returns TRUE exactly when the stream is open for
    writing.  It then has written four bytes at the position and moved
    the position by 4; otherwise the contents and the position are what
    they were and the stream's error indicator is set. *)
Theorem xdrstdio_putlong_succeeds_iff (H : host) (x : Z) (m : machine)
        (a : positive) (f : FILE) :
  x_private (m_xdrs m) = Some a ->
  io_files (m_io m) !! a = Some f ->
  let r := xdrstdio_putlong H x m in
  (fst r = TRUE <-> f_writable f = true)
  /\ (f_writable f = true ->
      exists data, length data = 4%nat
                   /\ stream_file (snd r) = Some (file_after_write f data))
  /\ (f_writable f = false -> stream_file (snd r) = Some (file_fail f)).
Proof.
  intros Hp Hf r. subst r. unfold xdrstdio_putlong.
  destruct (f_writable f) eqn:Hw.
  - rewrite Hp, (fwrite_one_item _ _ a _ f Hf Hw)
      by (rewrite ?length_store_long; pose proof (sizeof_long_ge_4 H);
          unfold sizeof_int32_t; lia).
    cbn [Z.eqb Pos.eqb negb fst snd].
    split; [split; auto|]. split; [|discriminate].
    intros _. eexists. split; [|apply stream_file_set, Hp].
    rewrite length_take, length_store_long.
    pose proof (sizeof_long_ge_4 H). unfold sizeof_int32_t. lia.
  - unfold fwrite. rewrite Hp, Hf, Hw. cbn [Z.eqb negb fst snd].
    split; [split; discriminate|]. split; [discriminate|].
    intros _. apply stream_file_set, Hp.
Qed.

Lemma xdrstdio_putlong_succeeds_iff_witness :
  let r := xdrstdio_putlong LE_LP64 7 (decode_stream 1 [x00; x01]) in
  fst r = FALSE /\ stream_view (snd r) = [x00; x01]
  /\ f_err <$> stream_file (snd r) = Some true.
Proof.
  intros r.
  destruct (xdrstdio_putlong_succeeds_iff LE_LP64 7
              (decode_stream 1 [x00; x01]) 1 (read_only_file [x00; x01])
              eq_refl ltac:(vm_compute; reflexivity)) as (Hiff & _ & Hst).
  split.
  - destruct (fst r) eqn:E; [|reflexivity].
    discriminate (proj1 Hiff E).
  - unfold stream_view. fold r in Hst. rewrite (Hst eq_refl). split; reflexivity.
Defined.

(** X7.  On a big-endian host with a 64-bit [long] a value does not
    survive the stream at all: on a stream open for update put_long
    returns TRUE and writes four zero bytes whatever the value, and
    after set_pos back get_long returns TRUE and stores the low 32 bits
    of what [*lp] held before the call. *)
Theorem putlong_getlong_BE_LP64 (x lp : Z) (m : machine) (a : positive)
        (f : FILE) :
  x_private (m_xdrs m) = Some a ->
  io_files (m_io m) !! a = Some f ->
  f_readable f = true -> f_writable f = true ->
  0 <= f_pos f < 2 ^ 32 ->
  let r1 := xdrstdio_putlong BE_LP64 x m in
  let r2 := xdrstdio_setpos BE_LP64 (f_pos f) (snd r1) in
  let r3 := xdrstdio_getlong BE_LP64 lp (snd r2) in
  fst r1 = TRUE /\ fst r2 = TRUE
  /\ take 4 (drop (Z.to_nat (f_pos f)) (stream_view (snd r1)))
     = [x00; x00; x00; x00]
  /\ fst r3 = (TRUE, lp mod 2 ^ 32).
Proof.
  intros Hp Hf Hr Hw Hpos r1 r2 r3. subst r1 r2 r3.
  rewrite (xdrstdio_putlong_BE_LP64 x m a f Hp Hf Hw). cbn [fst snd].
  erewrite xdrstdio_setpos_ok;
    [| exact Hp | apply io_files_set
     | change (LONG_MAX BE_LP64) with (2 ^ 63 - 1); lia].
  cbn [fst snd].
  pose proof (file_rest_after_write_seek f [x00; x00; x00; x00]) as Hb.
  cbn [length] in Hb.
  erewrite xdrstdio_getlong_BE_LP64;
    [| exact Hp | apply io_files_set | exact Hr |].
  - repeat split. unfold stream_view. rewrite stream_file_set by exact Hp.
    cbn [from_option file_after_write f_view].
    apply (overwrite_read_back (f_view f) [x00; x00; x00; x00]).
  - apply (f_equal length) in Hb. rewrite length_take in Hb.
    cbn [length] in Hb. lia.
Qed.

Lemma putlong_getlong_BE_LP64_witness :
  let m := update_stream 1 [] 0 in
  let r1 := xdrstdio_putlong BE_LP64 123456 m in
  let r2 := xdrstdio_setpos BE_LP64 0 (snd r1) in
  let r3 := xdrstdio_getlong BE_LP64 (-1) (snd r2) in
  stream_view (snd r1) = [x00; x00; x00; x00]
  /\ fst r3 = (TRUE, 4294967295).
Proof.
  intros m r1 r2 r3.
  destruct (putlong_getlong_BE_LP64 123456 (-1) m 1
              (mkFILE true true [] [] 0 false false)
              eq_refl ltac:(vm_compute; reflexivity) eq_refl eq_refl
              ltac:(split; [discriminate | reflexivity]))
    as (_ & _ & _ & E).
  split; [vm_compute; reflexivity | exact E].
Defined.

(** ** Runs of operations *)

Lemma xdr_invoke_putlong (H : host) (x : Z) (m : machine) :
  x_ops (m_xdrs m) = Some addr_xdrstdio_ops ->
  xdr_invoke H (XDR_PUTLONG x) m
  = (ret_bool (fst (xdrstdio_putlong H x m)), snd (xdrstdio_putlong H x m)).
Proof.
  intros Ho. unfold xdr_invoke. rewrite Ho.
  cbn [deref_ops xdrstdio_ops x_putlong].
  destruct (xdrstdio_putlong H x m). reflexivity.
Qed.

Lemma xdr_invoke_getlong (H : host) (lp : Z) (m : machine) :
  x_ops (m_xdrs m) = Some addr_xdrstdio_ops ->
  xdr_invoke H (XDR_GETLONG lp) m
  = (ret_long (fst (fst (xdrstdio_getlong H lp m)))
              (snd (fst (xdrstdio_getlong H lp m))),
     snd (xdrstdio_getlong H lp m)).
Proof.
  intros Ho. unfold xdr_invoke. rewrite Ho.
  cbn [deref_ops xdrstdio_ops x_getlong].
  destruct (xdrstdio_getlong H lp m) as [[ok v] m']. reflexivity.
Qed.

Lemma xdr_run_app (H : host) (cs cs' : list xdr_call) (m : machine) :
  xdr_run H (cs ++ cs') m = xdr_run H cs' (xdr_run H cs m).
Proof.
  revert m; induction cs as [|c cs IH]; intros m; [reflexivity|].
  cbn [app xdr_run]. apply IH.
Qed.

Lemma xdr_run_putlongs (H : host) (a : positive) (xs : list Z) :
  low_word_first H = true ->
  forall (m : machine) (f : FILE),
    x_ops (m_xdrs m) = Some addr_xdrstdio_ops ->
    x_private (m_xdrs m) = Some a ->
    io_files (m_io m) !! a = Some f -> f_writable f = true ->
    0 <= f_pos f -> Z.to_nat (f_pos f) = length (f_view f) ->
    exists f',
      io_files (m_io (xdr_run H (map XDR_PUTLONG xs) m)) !! a = Some f'
      /\ f_view f' = f_view f ++ concat (map (be_encode 4) xs)
      /\ f_pos f' = f_pos f + 4 * Z.of_nat (length xs).
Proof.
  intros Hw. induction xs as [|x xs IH]; intros m f Ho Hp Hf Hfw Hpos Hend.
  - exists f. cbn. rewrite app_nil_r. repeat split; [exact Hf | lia].
  - cbn [map xdr_run]. rewrite (xdr_invoke_putlong H x m Ho).
    rewrite (xdrstdio_putlong_ok H x m a f Hw Hp Hf Hfw). cbn [snd].
    destruct (IH (mkMachine (m_xdrs m)
                    (io_set a (file_after_write f (be_encode 4 x))
                       (io_log (io_fwrite (Some a) 4 1) (m_io m))))
                 (file_after_write f (be_encode 4 x)))
      as (f' & Hf' & Hv & Hq); cbn [m_xdrs m_io]; trivial.
    + apply io_files_set.
    + cbn [file_after_write f_pos]. lia.
    + cbn [file_after_write f_pos f_view].
      rewrite Hend, overwrite_at_end, length_app, length_be_encode. lia.
    + exists f'. split; [exact Hf'|].
      rewrite Hv, Hq. cbn [file_after_write f_pos f_view].
      rewrite Hend, overwrite_at_end, length_be_encode.
      cbn [map concat length]. rewrite <- app_assoc.
      split; [reflexivity | lia].
Qed.

(** X8.  On a host whose [long] starts with its low 32 bits, a run of
    put_long calls on a stream open for writing and positioned at the
    end of the file, followed by destroy, leaves in the underlying file
    what the file held followed by the four big-endian bytes of each
    value, in the order of the calls; the stream is still open. *)
Theorem putlongs_then_destroy (H : host) (a : positive) (xs : list Z)
        (m : machine) (f : FILE) :
  low_word_first H = true ->
  x_ops (m_xdrs m) = Some addr_xdrstdio_ops ->
  x_private (m_xdrs m) = Some a ->
  io_files (m_io m) !! a = Some f -> f_writable f = true ->
  0 <= f_pos f -> Z.to_nat (f_pos f) = length (f_view f) ->
  let m' := xdr_run H (map XDR_PUTLONG xs ++ [XDR_DESTROY]) m in
  stream_disk m' = f_view f ++ concat (map (be_encode 4) xs)
  /\ stream_view m' = stream_disk m'
  /\ f_pos <$> stream_file m' = Some (f_pos f + 4 * Z.of_nat (length xs)).
Proof.
  intros Hw Ho Hp Hf Hfw Hpos Hend m'. subst m'.
  destruct (xdr_run_putlongs H a xs Hw m f Ho Hp Hf Hfw Hpos Hend)
    as (f' & Hf' & Hv & Hq).
  rewrite xdr_run_app. set (m1 := xdr_run H (map XDR_PUTLONG xs) m) in *.
  assert (Hh : m_xdrs m1 = m_xdrs m) by apply xdr_run_handle.
  cbn [xdr_run]. unfold xdr_invoke. rewrite Hh, Ho.
  cbn [deref_ops xdrstdio_ops x_destroy snd].
  rewrite (xdrstdio_destroy_open m1 a f') by (rewrite ?Hh; assumption).
  unfold stream_disk, stream_view. rewrite stream_file_set by (rewrite Hh; exact Hp).
  cbn [from_option file_sync f_disk f_view f_pos fmap option_fmap option_map].
  rewrite Hv, Hq. auto.
Qed.

Lemma putlongs_then_destroy_witness :
  let m' := xdr_run LE_ILP32
              (map XDR_PUTLONG [1; -1; 258] ++ [XDR_DESTROY])
              (update_stream 1 [x58] 1) in
  stream_disk m'
  = [x58; x00; x00; x00; x01; xff; xff; xff; xff; x00; x00; x01; x02].
Proof.
  intros m'.
  destruct (putlongs_then_destroy LE_ILP32 1 [1; -1; 258]
              (update_stream 1 [x58] 1)
              (mkFILE true true [x58] [x58] 1 false false)
              eq_refl eq_refl eq_refl ltac:(vm_compute; reflexivity)
              eq_refl ltac:(discriminate) eq_refl) as (E & _).
  fold m' in E. rewrite E. reflexivity.
Defined.

Lemma file_rest_after_read (f : FILE) (n : nat) :
  0 <= f_pos f ->
  file_rest (file_after_read f n n) = drop n (file_rest f).
Proof.
  intros Hp. unfold file_rest. cbn [file_after_read f_pos f_view].
  rewrite drop_drop. f_equal. lia.
Qed.

Lemma xdr_run_getlongs (H : host) (a : positive) (xs : list Z) :
  low_word_first H = true ->
  forall (lps : list Z) (m : machine) (f : FILE) (tl : list byte),
    length lps = length xs ->
    x_ops (m_xdrs m) = Some addr_xdrstdio_ops ->
    x_private (m_xdrs m) = Some a ->
    io_files (m_io m) !! a = Some f -> f_readable f = true ->
    0 <= f_pos f ->
    file_rest f = concat (map (be_encode 4) xs) ++ tl ->
    fst (xdr_run_results H (map XDR_GETLONG lps) m)
    = map (fun x => ret_long TRUE (cast_long H (x mod 2 ^ 32))) xs
    /\ file_rest <$> stream_file (snd (xdr_run_results H
                                         (map XDR_GETLONG lps) m))
       = Some tl.
Proof.
  intros Hw. induction xs as [|x xs IH];
    intros lps m f tl Hlen Ho Hp Hf Hr Hpos Hrest.
  - destruct lps; [|discriminate Hlen]. cbn.
    unfold stream_file, io_file. rewrite Hp, Hf. cbn. rewrite Hrest.
    auto.
  - destruct lps as [|lp lps]; [discriminate Hlen|].
    cbn [map xdr_run_results]. rewrite (xdr_invoke_getlong H lp m Ho).
    cbn [map concat] in Hrest. rewrite <- app_assoc in Hrest.
    assert (Hl : (4 <= length (file_rest f))%nat)
      by (rewrite Hrest, length_app, length_be_encode; lia).
    rewrite (xdrstdio_getlong_ok H lp m a f Hw Hp Hf Hr Hl). cbn [fst snd].
    assert (Ht : take 4 (file_rest f) = be_encode 4 x).
    { rewrite Hrest. rewrite <- (length_be_encode 4 x) at 1.
      apply take_app_length. }
    assert (Hd : drop 4 (file_rest f) = concat (map (be_encode 4) xs) ++ tl).
    { rewrite Hrest. rewrite <- (length_be_encode 4 x) at 1.
      apply drop_app_length. }
    destruct (IH lps
                (mkMachine (m_xdrs m)
                   (io_set a (file_after_read f 4 4)
                      (io_log (io_fread (Some a) 4 1) (m_io m))))
                (file_after_read f 4 4) tl) as [E1 E2];
      cbn [m_xdrs m_io]; trivial.
    + cbn [length] in Hlen. lia.
    + apply io_files_set.
    + cbn [file_after_read f_pos]. lia.
    + rewrite file_rest_after_read by exact Hpos. exact Hd.
    + destruct (xdr_run_results H (map XDR_GETLONG lps) _) as [rs m2].
      cbn [fst snd] in *. rewrite E1, Ht, be_decode_encode.
      change (8 * Z.of_nat 4) with 32. auto.
Qed.

(** X9.  On a host whose [long] starts with its low 32 bits, when a
    stream open for reading holds at its position the four-byte
    big-endian encodings of a list of values, that many get_long calls
    return TRUE each with the values in order, each modulo 2^32 and
    converted to [long], and leave the stream just after them. *)
Theorem getlongs_in_order (H : host) (a : positive) (xs lps : list Z)
        (m : machine) (f : FILE) (tl : list byte) :
  low_word_first H = true ->
  length lps = length xs ->
  x_ops (m_xdrs m) = Some addr_xdrstdio_ops ->
  x_private (m_xdrs m) = Some a ->
  io_files (m_io m) !! a = Some f -> f_readable f = true ->
  0 <= f_pos f ->
  file_rest f = concat (map (be_encode 4) xs) ++ tl ->
  let r := xdr_run_results H (map XDR_GETLONG lps) m in
  fst r = map (fun x => ret_long TRUE (cast_long H (x mod 2 ^ 32))) xs
  /\ file_rest <$> stream_file (snd r) = Some tl.
Proof.
  intros Hw Hlen Ho Hp Hf Hr Hpos Hrest r.
  exact (xdr_run_getlongs H a xs Hw lps m f tl Hlen Ho Hp Hf Hr Hpos Hrest).
Qed.

Lemma getlongs_in_order_witness :
  let m := decode_stream 1
             [x00; x00; x00; x07; xff; xff; xff; xfe; x2a] in
  fst (xdr_run_results LE_LP64 (map XDR_GETLONG [0; 0]) m)
  = [ret_long TRUE 7; ret_long TRUE 4294967294].
Proof.
  intros m.
  destruct (getlongs_in_order LE_LP64 1 [7; -2] [0; 0] m
              (read_only_file
                 [x00; x00; x00; x07; xff; xff; xff; xfe; x2a]) [x2a]
              eq_refl eq_refl eq_refl eq_refl
              ltac:(vm_compute; reflexivity) eq_refl ltac:(discriminate)
              ltac:(vm_compute; reflexivity)) as (E & _).
  rewrite E. reflexivity.
Defined.

(** ** What the operations do not look at, and do not touch *)

Lemma xdr_invoke_same_stream (H : host) (c : xdr_call) (m m' : machine) :
  same_stream m m' ->
  fst (xdr_invoke H c m) = fst (xdr_invoke H c m')
  /\ same_stream (snd (xdr_invoke H c m)) (snd (xdr_invoke H c m')).
Proof.
  destruct m as [h io], m' as [h' io']. unfold same_stream.
  cbn [m_xdrs m_io]. intros (Eo & Ep & <-).
  unfold xdr_invoke. cbn [m_xdrs m_io]. rewrite Eo.
  destruct (x_ops h') as [[]|] eqn:Eo'; [|cbn; repeat split; congruence].
  destruct c; cbn [deref_ops xdrstdio_ops x_getlong x_putlong x_getbytes
                   x_putbytes x_getpostn x_setpostn x_inline x_destroy].
  - unfold xdrstdio_getlong. cbn [m_xdrs m_io]. rewrite Ep.
    destruct (fread _ _ _ _ _) as [[n mem] io1].
    destruct (negb _); cbn; repeat split; congruence.
  - unfold xdrstdio_putlong. cbn [m_xdrs m_io]. rewrite Ep.
    destruct (fwrite _ _ _ _ _) as [n io1].
    destruct (negb _); cbn; repeat split; congruence.
  - unfold xdrstdio_getbytes. cbn [m_xdrs m_io]. rewrite Ep.
    destruct (negb (len =? 0)); [|cbn; repeat split; congruence].
    destruct (fread _ _ _ _ _) as [[n mem] io1].
    destruct (negb _); cbn; repeat split; congruence.
  - unfold xdrstdio_putbytes. cbn [m_xdrs m_io]. rewrite Ep.
    destruct (negb (len =? 0)); [|cbn; repeat split; congruence].
    destruct (fwrite _ _ _ _ _) as [n io1].
    destruct (negb _); cbn; repeat split; congruence.
  - unfold xdrstdio_getpos. cbn [m_xdrs m_io]. rewrite Ep.
    destruct (ftell _ _ _) as [r io1]. cbn; repeat split; congruence.
  - unfold xdrstdio_setpos. cbn [m_xdrs m_io]. rewrite Ep.
    destruct (fseek _ _ _ _) as [r io1]. cbn; repeat split; congruence.
  - cbn; repeat split; congruence.
  - unfold xdrstdio_destroy. cbn [m_xdrs m_io]. rewrite Ep.
    destruct (fflush _ _) as [r io1]. cbn; repeat split; congruence.
Qed.

Lemma xdr_run_results_same_stream (H : host) (cs : list xdr_call) :
  forall m m' : machine,
    same_stream m m' ->
    fst (xdr_run_results H cs m) = fst (xdr_run_results H cs m')
    /\ same_stream (snd (xdr_run_results H cs m))
                   (snd (xdr_run_results H cs m')).
Proof.
  induction cs as [|c cs IH]; intros m m' Hs; [cbn; auto|].
  cbn [xdr_run_results].
  destruct (xdr_invoke_same_stream H c m m' Hs) as [E1 E2].
  destruct (xdr_invoke H c m) as [r m1], (xdr_invoke H c m') as [r' m1'].
  cbn [fst snd] in E1, E2. destruct (IH m1 m1' E2) as [E3 E4].
  destruct (xdr_run_results H cs m1) as [rs m2],
           (xdr_run_results H cs m1') as [rs' m2'].
  cbn [fst snd] in *. subst. auto.
Qed.

(** X10.  The mode is recorded and never consulted: whatever the
    sequence of operations, a handle created with one mode and a handle
    created with another on the same file return the same results and
    leave the C library's streams in the same state, call for call.  In
    particular put_long on a DECODE handle writes to the file. *)
Theorem mode_is_not_enforced (H : host) (file : ptr) (op op' : xdr_op)
        (m : machine) (cs : list xdr_call) :
  let r := xdr_run_results H cs (xdrstdio_create file op m) in
  let r' := xdr_run_results H cs (xdrstdio_create file op' m) in
  fst r = fst r' /\ m_io (snd r) = m_io (snd r').
Proof.
  intros r r'. subst r r'.
  destruct (xdr_run_results_same_stream H cs
              (xdrstdio_create file op m) (xdrstdio_create file op' m))
    as [E1 (_ & _ & E2)].
  - rewrite !xdrstdio_create_eq. repeat split.
  - auto.
Qed.

(** A put_long on a handle created for decoding, over a file open for
    update. *)
Lemma putlong_on_decode_handle :
  let m := xdrstdio_create (Some 1%positive) XDR_DECODE
             (update_stream 1 [x61; x62; x63; x64] 0) in
  let r := xdr_invoke LE_LP64 (XDR_PUTLONG 1) m in
  x_op (m_xdrs m) = XDR_DECODE
  /\ fst r = ret_bool TRUE
  /\ stream_view (snd r) = [x00; x00; x00; x01].
Proof. vm_compute. repeat split. Qed.

Lemma io_set_other (a b : positive) (f : FILE) (io : stdio) :
  b <> a -> io_files (io_set a f io) !! b = io_files io !! b.
Proof. intros Hne. unfold io_set. cbn [io_files]. apply lookup_insert_ne. auto. Qed.

Lemma fread_other (buf : list byte) (size nmemb : Z) (a b : positive)
      (io : stdio) :
  b <> a ->
  io_files (snd (fread buf size nmemb (Some a) io)) !! b = io_files io !! b.
Proof.
  intros Hne. unfold fread.
  destruct (io_files io !! a) as [f|]; [|reflexivity].
  destruct (f_readable f); cbn [snd]; rewrite io_set_other by exact Hne;
    reflexivity.
Qed.

Lemma fwrite_other (buf : list byte) (size nmemb : Z) (a b : positive)
      (io : stdio) :
  b <> a ->
  io_files (snd (fwrite buf size nmemb (Some a) io)) !! b = io_files io !! b.
Proof.
  intros Hne. unfold fwrite.
  destruct (io_files io !! a) as [f|]; [|reflexivity].
  destruct (f_writable f); [destruct (_ <=? _)|]; cbn [snd];
    rewrite ?io_set_other by exact Hne; reflexivity.
Qed.

Lemma fflush_other (a b : positive) (io : stdio) :
  b <> a -> io_files (snd (fflush (Some a) io)) !! b = io_files io !! b.
Proof.
  intros Hne. unfold fflush. cbn [io_log io_files].
  destruct (io_files io !! a) as [f|]; cbn [snd];
    rewrite ?io_set_other by exact Hne; reflexivity.
Qed.

Lemma ftell_other (H : host) (fp : ptr) (io : stdio) :
  io_files (snd (ftell H fp io)) = io_files io.
Proof. unfold ftell. destruct (io_file fp io); reflexivity. Qed.

Lemma fseek_other (a b : positive) (offset whence : Z) (io : stdio) :
  b <> a ->
  io_files (snd (fseek (Some a) offset whence io)) !! b = io_files io !! b.
Proof.
  intros Hne. unfold fseek.
  destruct (io_files io !! a) as [f|]; [|reflexivity].
  destruct (if whence =? SEEK_SET then _ else _) as [t|]; [|reflexivity].
  destruct (t <? 0); cbn [snd]; rewrite ?io_set_other by exact Hne;
    reflexivity.
Qed.

Lemma xdr_invoke_other (H : host) (c : xdr_call) (m : machine)
      (a b : positive) :
  x_private (m_xdrs m) = Some a -> b <> a ->
  io_files (m_io (snd (xdr_invoke H c m))) !! b = io_files (m_io m) !! b.
Proof.
  intros Hp Hne. unfold xdr_invoke.
  destruct (x_ops (m_xdrs m)) as [[]|]; [|reflexivity].
  destruct c; cbn [deref_ops xdrstdio_ops x_getlong x_putlong x_getbytes
                   x_putbytes x_getpostn x_setpostn x_inline x_destroy].
  - unfold xdrstdio_getlong. rewrite Hp.
    pose proof (fread_other (store_long H lp) sizeof_int32_t 1 a b
                  (m_io m) Hne) as E.
    destruct (fread _ _ _ _ _) as [[n mem] io].
    destruct (negb _); exact E.
  - unfold xdrstdio_putlong. rewrite Hp.
    pose proof (fwrite_other
                  (store_long H (cast_long H (htonl H (cast_u_int32_t lp))))
                  sizeof_int32_t 1 a b (m_io m) Hne) as E.
    destruct (fwrite _ _ _ _ _) as [n io].
    destruct (negb _); exact E.
  - unfold xdrstdio_getbytes. destruct (negb (len =? 0)); [|reflexivity].
    rewrite Hp.
    pose proof (fread_other addr len 1 a b (m_io m) Hne) as E.
    destruct (fread _ _ _ _ _) as [[n mem] io].
    destruct (negb _); exact E.
  - unfold xdrstdio_putbytes. destruct (negb (len =? 0)); [|reflexivity].
    rewrite Hp.
    pose proof (fwrite_other addr len 1 a b (m_io m) Hne) as E.
    destruct (fwrite _ _ _ _ _) as [n io].
    destruct (negb _); exact E.
  - unfold xdrstdio_getpos.
    pose proof (ftell_other H (x_private (m_xdrs m)) (m_io m)) as E.
    destruct (ftell _ _ _) as [r io]. cbn [snd m_io] in *. rewrite E.
    reflexivity.
  - unfold xdrstdio_setpos. rewrite Hp.
    pose proof (fseek_other a b (cast_long H pos) 0 (m_io m) Hne) as E.
    destruct (fseek _ _ _ _) as [r io]. exact E.
  - reflexivity.
  - unfold xdrstdio_destroy. rewrite Hp.
    pose proof (fflush_other a b (m_io m) Hne) as E.
    destruct (fflush _ _) as [r io]. exact E.
Qed.

(** X11.  A handle on a FILE touches that FILE only: after any sequence
    of operations on it every other stream in the C library's table is
    exactly as it was, position, contents and indicators. *)
Theorem other_streams_untouched (H : host) (cs : list xdr_call)
        (m : machine) (a b : positive) :
  x_private (m_xdrs m) = Some a -> b <> a ->
  io_files (m_io (xdr_run H cs m)) !! b = io_files (m_io m) !! b.
Proof.
  revert m; induction cs as [|c cs IH]; intros m Hp Hne; [reflexivity|].
  cbn [xdr_run]. rewrite IH.
  - apply (xdr_invoke_other H c m a b Hp Hne).
  - rewrite xdr_invoke_handle. exact Hp.
  - exact Hne.
Qed.

Lemma other_streams_untouched_witness :
  let m := mkMachine
             (mkXDR XDR_ENCODE (Some addr_xdrstdio_ops) None None None
                    (Some 1%positive) 0 0)
             (mkStdio {[1%positive := fresh_file;
                        2%positive := read_only_file [x61; x62]]} []) in
  let cs := [XDR_PUTLONG 5; XDR_SETPOS 0; XDR_GETLONG 0; XDR_DESTROY] in
  io_files (m_io (xdr_run LE_LP64 cs m)) !! 2%positive
  = Some (read_only_file [x61; x62]).
Proof.
  intros m cs.
  rewrite (other_streams_untouched LE_LP64 cs m 1 2 eq_refl
             ltac:(discriminate)).
  vm_compute. reflexivity.
Defined.

Lemma fwrite_trace (buf : list byte) (size nmemb : Z) (fp : ptr)
      (io : stdio) :
  io_trace (snd (fwrite buf size nmemb fp io))
  = io_trace io ++ [io_fwrite fp size nmemb].
Proof.
  unfold fwrite. destruct fp as [a|]; [|reflexivity].
  destruct (io_files io !! a) as [f|]; [|reflexivity].
  destruct (f_writable f); [destruct (_ <=? _)|]; reflexivity.
Qed.

Lemma xdr_run_puts_trace (H : host) (cs : list xdr_call) :
  forall m : machine,
    forallb is_put cs = true ->
    exists evs,
      io_trace (m_io (xdr_run H cs m)) = io_trace (m_io m) ++ evs
      /\ forallb io_is_fwrite evs = true
      /\ (length evs <= length cs)%nat.
Proof.
  induction cs as [|c cs IH]; intros m Hput.
  - exists []. cbn. rewrite app_nil_r. auto.
  - cbn [forallb] in Hput. apply andb_prop in Hput as [Hc Hcs].
    cbn [xdr_run].
    destruct (IH (snd (xdr_invoke H c m)) Hcs) as (evs & Et & Ew & El).
    assert (Hstep : exists e,
               io_trace (m_io (snd (xdr_invoke H c m)))
               = io_trace (m_io m) ++ e
               /\ forallb io_is_fwrite e = true /\ (length e <= 1)%nat).
    { unfold xdr_invoke.
      destruct (x_ops (m_xdrs m)) as [[]|];
        [|exists []; cbn; rewrite app_nil_r; auto].
      destruct c; try discriminate Hc;
        cbn [deref_ops xdrstdio_ops x_putlong x_putbytes].
      - unfold xdrstdio_putlong.
        pose proof (fwrite_trace
                      (store_long H
                         (cast_long H (htonl H (cast_u_int32_t lp))))
                      sizeof_int32_t 1 (x_private (m_xdrs m)) (m_io m)) as E.
        destruct (fwrite _ _ _ _ _) as [n io]. cbn [snd] in E.
        eexists. destruct (negb _); cbn [snd m_io]; (split; [exact E|]);
          cbn; auto.
      - unfold xdrstdio_putbytes.
        destruct (negb (len =? 0));
          [|exists []; cbn; rewrite app_nil_r; auto].
        pose proof (fwrite_trace addr len 1 (x_private (m_xdrs m)) (m_io m))
          as E.
        destruct (fwrite _ _ _ _ _) as [n io]. cbn [snd] in E.
        eexists. destruct (negb _); cbn [snd m_io]; (split; [exact E|]);
          cbn; auto. }
    destruct Hstep as (e & Ee & Ewe & Ele).
    exists (e ++ evs). rewrite Et, Ee, <- app_assoc.
    split; [reflexivity|]. rewrite forallb_app, Ewe, Ew, length_app.
    split; [reflexivity | cbn [length]; lia].
Qed.

(** X12.  A run of put operations only (put_long, put_bytes) makes
    fwrite calls and no other call of the C library, at most one per
    operation: nothing is flushed, sought or read, so what was put need
    not be in the underlying file before destroy or set_pos. *)
Theorem puts_only_fwrite (H : host) (cs : list xdr_call) (m : machine) :
  forallb is_put cs = true ->
  exists evs,
    io_trace (m_io (xdr_run H cs m)) = io_trace (m_io m) ++ evs
    /\ forallb io_is_fwrite evs = true
    /\ (length evs <= length cs)%nat.
Proof. apply xdr_run_puts_trace. Qed.

Lemma puts_only_fwrite_witness :
  let cs := [XDR_PUTLONG 1; XDR_PUTBYTES [x61] 0; XDR_PUTBYTES [x61; x62] 2] in
  forallb is_put cs = true
  /\ exists evs,
       io_trace (m_io (xdr_run LE_LP64 cs (encode_stream 1)))
       = io_trace (m_io (encode_stream 1)) ++ evs
       /\ forallb io_is_fwrite evs = true
       /\ (length evs <= length cs)%nat.
Proof.
  intros cs. split; [reflexivity|].
  exact (puts_only_fwrite LE_LP64 cs (encode_stream 1) eq_refl).
Defined.

Lemma puts_trace_example :
  let cs := [XDR_PUTLONG 1; XDR_PUTBYTES [x61] 0; XDR_PUTBYTES [x61; x62] 2] in
  io_trace (m_io (xdr_run LE_LP64 cs (encode_stream 1)))
  = [io_fwrite (Some 1%positive) 4 1; io_fwrite (Some 1%positive) 2 1]
  /\ stream_view (xdr_run LE_LP64 cs (encode_stream 1))
     = [x00; x00; x00; x01; x61; x62]
  /\ stream_disk (xdr_run LE_LP64 cs (encode_stream 1)) = [].
Proof. vm_compute. repeat split. Qed.

(** X13.  The fast path and the extension slots are never available:
    on a handle created in either mode, after any sequence of
    operations, inline returns NULL for every length and the control,
    getbufs and putbufs entries of the table return FALSE, and none of
    them calls the C library or changes the handle. *)
Theorem unsupported_operations (H : host) (file : ptr) (op : xdr_op)
        (m : machine) (cs : list xdr_call) (len rq n : Z) (arg : ptr) :
  let m1 := xdr_run H cs (xdrstdio_create file op m) in
  xdr_invoke H (XDR_INLINE len) m1 = (ret_ptr NULL, m1)
  /\ x_control (xdrstdio_ops H) rq arg m1 = (FALSE, m1)
  /\ x_getbufs (xdrstdio_ops H) arg len n m1 = (FALSE, m1)
  /\ x_putbufs (xdrstdio_ops H) arg len m1 = (FALSE, m1).
Proof.
  intros m1. repeat split. unfold xdr_invoke.
  replace (x_ops (m_xdrs m1)) with (Some addr_xdrstdio_ops); [reflexivity|].
  subst m1. rewrite xdr_run_handle, xdrstdio_create_eq. reflexivity.
Qed.

(** X14.  On a host with a 32-bit [long], set_pos to a position of 2^31
    or more returns FALSE and leaves every stream as it was, the
    position of the handle's own stream included: the position turns
    into a negative offset, which fseek rejects. *)
Theorem xdrstdio_setpos_high_untouched (H : host) (pos : Z) (m : machine) :
  h_long H = LONG32 -> 2 ^ 31 <= pos < 2 ^ 32 ->
  let r := xdrstdio_setpos H pos m in
  fst r = FALSE
  /\ io_files (m_io (snd r)) = io_files (m_io m)
  /\ m_xdrs (snd r) = m_xdrs m
  /\ io_trace (m_io (snd r))
     = io_trace (m_io m) ++ [io_fseek (x_private (m_xdrs m)) (pos - 2 ^ 32) 0].
Proof.
  intros Hl Hpos r. subst r. unfold xdrstdio_setpos.
  assert (Hc : cast_long H pos = pos - 2 ^ 32).
  { unfold cast_long, long_bits, sizeof_long, wrap_signed. rewrite Hl.
    change (8 * Z.of_nat 4) with 32. rewrite Z.mod_small by lia.
    destruct (Z.ltb_spec pos (2 ^ (32 - 1))) as [Hlt|_];
      [change (2 ^ (32 - 1)) with (2 ^ 31) in Hlt; lia | reflexivity]. }
  rewrite Hc, fseek_set_negative by lia. cbn. auto.
Qed.

Lemma xdrstdio_setpos_high_untouched_witness :
  let m := update_stream 1 [x61; x62; x63] 2 in
  let r := xdrstdio_setpos BE_ILP32 (2 ^ 31) m in
  fst r = FALSE /\ io_files (m_io (snd r)) = io_files (m_io m)
  /\ f_pos <$> stream_file (snd r) = Some 2.
Proof.
  intros m r.
  destruct (xdrstdio_setpos_high_untouched BE_ILP32 (2 ^ 31) m eq_refl
              ltac:(split; [discriminate | reflexivity]))
    as (E1 & E2 & _).
  split; [exact E1|]. split; [exact E2 | vm_compute; reflexivity].
Defined.

(** ** The position after a transfer *)

Lemma fwrite_item_inv (buf : list byte) (size : Z) (fp : ptr) (io : stdio) :
  0 < size -> fst (fwrite buf size 1 fp io) = 1 ->
  exists a f, fp = Some a /\ io_files io !! a = Some f
              /\ f_writable f = true
              /\ (Z.to_nat size <= length buf)%nat.
Proof.
  intros Hs. unfold fwrite.
  destruct fp as [a|]; [|cbn; discriminate].
  destruct (io_files io !! a) as [f|] eqn:Hf; [|cbn; discriminate].
  destruct (f_writable f) eqn:Hw; [|cbn; discriminate].
  rewrite Z.mul_1_r. destruct (Z.leb_spec size 0) as [|_]; [lia|].
  cbn [fst]. intros Hn. exists a, f. repeat split; trivial.
  rewrite length_take in Hn.
  destruct (Nat.le_gt_cases (Z.to_nat size) (length buf)) as [Hle|Hgt];
    [exact Hle|].
  rewrite Nat.min_r in Hn by lia.
  rewrite Z.div_small in Hn by lia. discriminate.
Qed.

Lemma getpos_after_read (H : host) (buf : list byte) (size : Z)
      (xdrs : XDR) (io : stdio) (a : positive) (f : FILE) :
  x_private xdrs = Some a -> io_files io !! a = Some f ->
  0 < size -> f_pos f + size <= LONG_MAX H ->
  fst (fst (fread buf size 1 (Some a) io)) = 1 ->
  fst (xdrstdio_getpos H
         (mkMachine xdrs (snd (fread buf size 1 (Some a) io))))
  = cast_u_int (f_pos f + size).
Proof.
  intros Hp Hf Hs Hmax Hn.
  destruct (fread_item_inv buf size (Some a) io Hs Hn)
    as (a' & f' & Ea & Hf' & Hr & Hl).
  injection Ea as <-. rewrite Hf in Hf'. injection Hf' as <-.
  rewrite (fread_one_item buf size a io f Hf Hr Hs Hl). cbn [snd].
  erewrite xdrstdio_getpos_open; [| exact Hp | apply io_files_set |];
    cbn [fst file_after_read f_pos]; rewrite Z2Nat.id by lia;
    [reflexivity | exact Hmax].
Qed.

Lemma getpos_after_write (H : host) (buf : list byte) (size : Z)
      (xdrs : XDR) (io : stdio) (a : positive) (f : FILE) :
  x_private xdrs = Some a -> io_files io !! a = Some f ->
  0 < size -> f_pos f + size <= LONG_MAX H ->
  fst (fwrite buf size 1 (Some a) io) = 1 ->
  fst (xdrstdio_getpos H
         (mkMachine xdrs (snd (fwrite buf size 1 (Some a) io))))
  = cast_u_int (f_pos f + size).
Proof.
  intros Hp Hf Hs Hmax Hn.
  destruct (fwrite_item_inv buf size (Some a) io Hs Hn)
    as (a' & f' & Ea & Hf' & Hw & Hl).
  injection Ea as <-. rewrite Hf in Hf'. injection Hf' as <-.
  rewrite (fwrite_one_item buf size a io f Hf Hw Hs Hl). cbn [snd].
  assert (Ht : Z.of_nat (length (take (Z.to_nat size) buf)) = size)
    by (rewrite length_take; lia).
  erewrite xdrstdio_getpos_open; [| exact Hp | apply io_files_set |];
    cbn [fst file_after_write f_pos]; rewrite Ht;
    [reflexivity | exact Hmax].
Qed.

(** X15.  get_pos counts what was transferred: on a handle whose stream
    is open at a position p, after a get_long, put_long, get_bytes or
    put_bytes that reported success, get_pos returns p + 4 for a
    [long] and p + len for a byte block, modulo 2^32, as long as that
    offset fits the host's [long]. *)
Theorem getpos_after_transfer (H : host) (c : xdr_call) (m : machine)
        (a : positive) (f : FILE) :
  x_ops (m_xdrs m) = Some addr_xdrstdio_ops ->
  x_private (m_xdrs m) = Some a ->
  io_files (m_io m) !! a = Some f ->
  is_transfer c = true -> 0 <= call_size c ->
  f_pos f + call_size c <= LONG_MAX H ->
  ret_ok (fst (xdr_invoke H c m)) = true ->
  fst (xdrstdio_getpos H (snd (xdr_invoke H c m)))
  = cast_u_int (f_pos f + call_size c).
Proof.
  intros Ho Hp Hf Ht Hsz Hmax. unfold xdr_invoke. rewrite Ho.
  destruct c; try discriminate Ht;
    cbn [deref_ops xdrstdio_ops x_getlong x_putlong x_getbytes x_putbytes
         call_size] in *.
  - unfold xdrstdio_getlong. rewrite Hp.
    pose proof (getpos_after_read H (store_long H lp) sizeof_int32_t
                  (m_xdrs m) (m_io m) a f Hp Hf eq_refl Hmax) as E.
    destruct (fread _ _ _ _ _) as [[n mem] io]. cbn [fst snd] in E.
    destruct (Z.eqb_spec n 1) as [->|]; cbn [negb fst snd ret_ok];
      [intros _; exact (E eq_refl) | discriminate].
  - unfold xdrstdio_putlong. rewrite Hp.
    pose proof (getpos_after_write H
                  (store_long H (cast_long H (htonl H (cast_u_int32_t lp))))
                  sizeof_int32_t (m_xdrs m) (m_io m) a f Hp Hf eq_refl Hmax)
      as E.
    destruct (fwrite _ _ _ _ _) as [n io]. cbn [fst snd] in E.
    destruct (Z.eqb_spec n 1) as [->|]; cbn [negb fst snd ret_ok];
      [intros _; exact (E eq_refl) | discriminate].
  - unfold xdrstdio_getbytes.
    destruct (Z.eqb_spec len 0) as [->|Hne]; cbn [negb].
    + intros _. cbn [snd]. rewrite Z.add_0_r in *.
      rewrite (xdrstdio_getpos_open H m a f Hp Hf Hmax). reflexivity.
    + rewrite Hp.
      pose proof (getpos_after_read H addr len (m_xdrs m) (m_io m) a f
                    Hp Hf ltac:(lia) Hmax) as E.
      destruct (fread _ _ _ _ _) as [[n mem] io]. cbn [fst snd] in E.
      destruct (Z.eqb_spec n 1) as [->|]; cbn [negb fst snd ret_ok];
        [intros _; exact (E eq_refl) | discriminate].
  - unfold xdrstdio_putbytes.
    destruct (Z.eqb_spec len 0) as [->|Hne]; cbn [negb].
    + intros _. cbn [snd]. rewrite Z.add_0_r in *.
      rewrite (xdrstdio_getpos_open H m a f Hp Hf Hmax). reflexivity.
    + rewrite Hp.
      pose proof (getpos_after_write H addr len (m_xdrs m) (m_io m) a f
                    Hp Hf ltac:(lia) Hmax) as E.
      destruct (fwrite _ _ _ _ _) as [n io]. cbn [fst snd] in E.
      destruct (Z.eqb_spec n 1) as [->|]; cbn [negb fst snd ret_ok];
        [intros _; exact (E eq_refl) | discriminate].
Qed.

Lemma getpos_after_transfer_witness :
  let m := update_stream 1 [x61; x62; x63; x64; x65] 1 in
  let c := XDR_GETBYTES [x00; x00; x00] 3 in
  ret_ok (fst (xdr_invoke LE_ILP32 c m)) = true
  /\ fst (xdrstdio_getpos LE_ILP32 (snd (xdr_invoke LE_ILP32 c m))) = 4.
Proof.
  intros m c. split; [vm_compute; reflexivity|].
  rewrite (getpos_after_transfer LE_ILP32 c m 1
             (mkFILE true true [x61; x62; x63; x64; x65]
                     [x61; x62; x63; x64; x65] 1 false false)
             eq_refl eq_refl ltac:(vm_compute; reflexivity) eq_refl
             ltac:(discriminate) ltac:(discriminate)
             ltac:(vm_compute; reflexivity)).
  reflexivity.
Defined.

(** ** After destroy *)

Lemma io_visible_lookup (io io' : stdio) (a : positive) :
  io_visible io = io_visible io' ->
  match io_files io !! a, io_files io' !! a with
  | Some f, Some f' => file_visible f = file_visible f'
  | None, None => True
  | _, _ => False
  end.
Proof.
  intros E. apply (f_equal (fun g => g !! a)) in E.
  unfold io_visible in E. rewrite !lookup_fmap in E.
  destruct (io_files io !! a), (io_files io' !! a);
    cbn [fmap option_fmap option_map] in E;
    try discriminate E; [|exact I].
  congruence.
Qed.

Lemma io_visible_set (io io' : stdio) (a : positive) (f f' : FILE) :
  io_visible io = io_visible io' -> file_visible f = file_visible f' ->
  io_visible (io_set a f io) = io_visible (io_set a f' io').
Proof.
  intros E Ef. unfold io_visible, io_set in *. cbn [io_files] in *.
  rewrite !fmap_insert, E, Ef. reflexivity.
Qed.

Lemma file_visible_fields (f f' : FILE) :
  file_visible f = file_visible f' ->
  f_readable f = f_readable f' /\ f_writable f = f_writable f'
  /\ f_view f = f_view f' /\ f_pos f = f_pos f'
  /\ f_eof f = f_eof f' /\ f_err f = f_err f'.
Proof. unfold file_visible. intros E. injection E. auto 10. Qed.

Lemma fread_visible (buf : list byte) (size nmemb : Z) (fp : ptr)
      (io io' : stdio) :
  io_visible io = io_visible io' ->
  fst (fread buf size nmemb fp io) = fst (fread buf size nmemb fp io')
  /\ io_visible (snd (fread buf size nmemb fp io))
     = io_visible (snd (fread buf size nmemb fp io')).
Proof.
  intros E. unfold fread. destruct fp as [a|]; [|cbn; auto].
  pose proof (io_visible_lookup io io' a E) as Hl.
  destruct (io_files io !! a) as [f|], (io_files io' !! a) as [f'|];
    try contradiction; [|cbn; auto].
  destruct (file_visible_fields f f' Hl) as (Er & Ew & Ev & Ep & Ee & Eerr).
  unfold file_rest. rewrite Er, Ev, Ep.
  destruct (f_readable f') eqn:Er'; cbn [fst snd].
  - split; [reflexivity|]. apply io_visible_set; [exact E|].
    unfold file_visible, file_after_read. cbn. congruence.
  - split; [reflexivity|]. apply io_visible_set; [exact E|].
    unfold file_visible, file_fail. cbn. congruence.
Qed.

Lemma fwrite_visible (buf : list byte) (size nmemb : Z) (fp : ptr)
      (io io' : stdio) :
  io_visible io = io_visible io' ->
  fst (fwrite buf size nmemb fp io) = fst (fwrite buf size nmemb fp io')
  /\ io_visible (snd (fwrite buf size nmemb fp io))
     = io_visible (snd (fwrite buf size nmemb fp io')).
Proof.
  intros E. unfold fwrite. destruct fp as [a|]; [|cbn; auto].
  pose proof (io_visible_lookup io io' a E) as Hl.
  destruct (io_files io !! a) as [f|], (io_files io' !! a) as [f'|];
    try contradiction; [|cbn; auto].
  destruct (file_visible_fields f f' Hl) as (Er & Ew & Ev & Ep & Ee & Eerr).
  rewrite Ew.
  destruct (f_writable f') eqn:Ew'; [destruct (_ <=? _)|]; cbn [fst snd];
    (split; [reflexivity|]); trivial.
  - apply io_visible_set; [exact E|].
    unfold file_visible, file_after_write. cbn. congruence.
  - apply io_visible_set; [exact E|].
    unfold file_visible, file_fail. cbn. congruence.
Qed.

Lemma io_visible_sync_all (files : gmap positive FILE)
      (tr : list io_call) :
  io_visible (mkStdio (file_sync <$> files) tr) = file_visible <$> files.
Proof.
  unfold io_visible. cbn [io_files]. rewrite <- map_fmap_compose.
  apply map_fmap_ext. intros a f _. reflexivity.
Qed.

Lemma fflush_visible (fp : ptr) (io io' : stdio) :
  io_visible io = io_visible io' ->
  fst (fflush fp io) = fst (fflush fp io')
  /\ io_visible (snd (fflush fp io)) = io_visible (snd (fflush fp io')).
Proof.
  intros E. unfold fflush. cbn [io_log io_files io_trace].
  destruct fp as [a|].
  - pose proof (io_visible_lookup io io' a E) as Hl.
    destruct (io_files io !! a) as [f|], (io_files io' !! a) as [f'|];
      try contradiction; cbn [fst snd]; [|auto].
    split; [reflexivity|].
    apply (io_visible_set (io_log _ io) (io_log _ io')); [exact E|].
    destruct (file_visible_fields f f' Hl) as (Er & Ew & Ev & Ep & Ee & Eerr).
    unfold file_visible, file_sync. cbn. congruence.
  - cbn [fst snd]. split; [reflexivity|].
    rewrite !io_visible_sync_all. exact E.
Qed.

Lemma ftell_visible (H : host) (fp : ptr) (io io' : stdio) :
  io_visible io = io_visible io' ->
  fst (ftell H fp io) = fst (ftell H fp io')
  /\ io_visible (snd (ftell H fp io)) = io_visible (snd (ftell H fp io')).
Proof.
  intros E. unfold ftell, io_file. destruct fp as [a|]; [|cbn; auto].
  pose proof (io_visible_lookup io io' a E) as Hl.
  destruct (io_files io !! a) as [f|], (io_files io' !! a) as [f'|];
    try contradiction; cbn [fst snd]; [|auto].
  destruct (file_visible_fields f f' Hl) as (Er & Ew & Ev & Ep & Ee & Eerr).
  rewrite Ep. auto.
Qed.

Lemma fseek_visible (fp : ptr) (offset whence : Z) (io io' : stdio) :
  io_visible io = io_visible io' ->
  fst (fseek fp offset whence io) = fst (fseek fp offset whence io')
  /\ io_visible (snd (fseek fp offset whence io))
     = io_visible (snd (fseek fp offset whence io')).
Proof.
  intros E. unfold fseek. destruct fp as [a|]; [|cbn; auto].
  pose proof (io_visible_lookup io io' a E) as Hl.
  destruct (io_files io !! a) as [f|], (io_files io' !! a) as [f'|];
    try contradiction; [|cbn; auto].
  destruct (file_visible_fields f f' Hl) as (Er & Ew & Ev & Ep & Ee & Eerr).
  rewrite Ep, Ev.
  destruct (if whence =? SEEK_SET then _ else _) as [t|]; [|cbn; auto].
  destruct (t <? 0); cbn [fst snd]; (split; [reflexivity|]); trivial.
  apply (io_visible_set (io_log _ io) (io_log _ io')); [exact E|].
  unfold file_visible, file_after_seek. cbn. congruence.
Qed.

Lemma fflush_keeps_visible (fp : ptr) (io : stdio) :
  io_visible (snd (fflush fp io)) = io_visible io.
Proof.
  unfold fflush. cbn [io_log io_files io_trace]. destruct fp as [a|].
  - destruct (io_files io !! a) as [f|] eqn:Hf; [|reflexivity].
    cbn [snd]. unfold io_visible, io_set. cbn [io_files].
    rewrite fmap_insert. apply insert_id.
    rewrite lookup_fmap, Hf. reflexivity.
  - cbn [snd]. apply io_visible_sync_all.
Qed.

Lemma xdr_invoke_visible (H : host) (c : xdr_call) (m m' : machine) :
  m_xdrs m = m_xdrs m' ->
  io_visible (m_io m) = io_visible (m_io m') ->
  fst (xdr_invoke H c m) = fst (xdr_invoke H c m')
  /\ m_xdrs (snd (xdr_invoke H c m)) = m_xdrs (snd (xdr_invoke H c m'))
  /\ io_visible (m_io (snd (xdr_invoke H c m)))
     = io_visible (m_io (snd (xdr_invoke H c m'))).
Proof.
  destruct m as [h io], m' as [h' io']. cbn [m_xdrs m_io]. intros <- E.
  unfold xdr_invoke. cbn [m_xdrs m_io].
  destruct (x_ops h) as [[]|]; [|cbn; auto].
  destruct c; cbn [deref_ops xdrstdio_ops x_getlong x_putlong x_getbytes
                   x_putbytes x_getpostn x_setpostn x_inline x_destroy].
  - unfold xdrstdio_getlong. cbn [m_xdrs m_io].
    destruct (fread_visible (store_long H lp) sizeof_int32_t 1
                (x_private h) io io' E) as [E1 E2].
    destruct (fread _ _ _ _ io) as [[n mem] io1],
             (fread _ _ _ _ io') as [[n' mem'] io1'].
    cbn [fst snd] in E1, E2. injection E1 as <- <-.
    destruct (negb _); cbn; auto.
  - unfold xdrstdio_putlong. cbn [m_xdrs m_io].
    destruct (fwrite_visible
                (store_long H (cast_long H (htonl H (cast_u_int32_t lp))))
                sizeof_int32_t 1 (x_private h) io io' E) as [E1 E2].
    destruct (fwrite _ _ _ _ io) as [n io1],
             (fwrite _ _ _ _ io') as [n' io1'].
    cbn [fst snd] in E1, E2. subst n'.
    destruct (negb _); cbn; auto.
  - unfold xdrstdio_getbytes. cbn [m_xdrs m_io].
    destruct (negb (len =? 0)); [|cbn; auto].
    destruct (fread_visible addr len 1 (x_private h) io io' E) as [E1 E2].
    destruct (fread _ _ _ _ io) as [[n mem] io1],
             (fread _ _ _ _ io') as [[n' mem'] io1'].
    cbn [fst snd] in E1, E2. injection E1 as <- <-.
    destruct (negb _); cbn; auto.
  - unfold xdrstdio_putbytes. cbn [m_xdrs m_io].
    destruct (negb (len =? 0)); [|cbn; auto].
    destruct (fwrite_visible addr len 1 (x_private h) io io' E) as [E1 E2].
    destruct (fwrite _ _ _ _ io) as [n io1],
             (fwrite _ _ _ _ io') as [n' io1'].
    cbn [fst snd] in E1, E2. subst n'.
    destruct (negb _); cbn; auto.
  - unfold xdrstdio_getpos. cbn [m_xdrs m_io].
    destruct (ftell_visible H (x_private h) io io' E) as [E1 E2].
    destruct (ftell _ _ io) as [r io1], (ftell _ _ io') as [r' io1'].
    cbn [fst snd] in E1, E2. subst r'. cbn; auto.
  - unfold xdrstdio_setpos. cbn [m_xdrs m_io].
    destruct (fseek_visible (x_private h) (cast_long H pos) 0 io io' E)
      as [E1 E2].
    destruct (fseek _ _ _ io) as [r io1], (fseek _ _ _ io') as [r' io1'].
    cbn [fst snd] in E1, E2. subst r'. cbn; auto.
  - cbn; auto.
  - unfold xdrstdio_destroy. cbn [m_xdrs m_io].
    destruct (fflush_visible (x_private h) io io' E) as [E1 E2].
    destruct (fflush _ io) as [r io1], (fflush _ io') as [r' io1'].
    cbn [fst snd] in E1, E2. cbn; auto.
Qed.

Lemma xdr_run_results_visible (H : host) (cs : list xdr_call) :
  forall m m' : machine,
    m_xdrs m = m_xdrs m' ->
    io_visible (m_io m) = io_visible (m_io m') ->
    fst (xdr_run_results H cs m) = fst (xdr_run_results H cs m')
    /\ m_xdrs (snd (xdr_run_results H cs m))
       = m_xdrs (snd (xdr_run_results H cs m'))
    /\ io_visible (m_io (snd (xdr_run_results H cs m)))
       = io_visible (m_io (snd (xdr_run_results H cs m'))).
Proof.
  induction cs as [|c cs IH]; intros m m' Eh Ev; [cbn; auto|].
  cbn [xdr_run_results].
  destruct (xdr_invoke_visible H c m m' Eh Ev) as (E1 & E2 & E3).
  destruct (xdr_invoke H c m) as [r m1], (xdr_invoke H c m') as [r' m1'].
  cbn [fst snd] in E1, E2, E3. destruct (IH m1 m1' E2 E3) as (E4 & E5 & E6).
  destruct (xdr_run_results H cs m1) as [rs m2],
           (xdr_run_results H cs m1') as [rs' m2'].
  cbn [fst snd] in *. subst. auto.
Qed.

(** X16.  destroy does not end the life of a handle: whatever sequence
    of operations follows it, every call returns what it would have
    returned had destroy not been called, and the handle and the
    streams, as far as any call can observe them, end up the same.
    Only the underlying files differ, by the flush. *)
Theorem destroy_is_harmless (H : host) (cs : list xdr_call) (m : machine) :
  let r := xdr_run_results H cs (xdrstdio_destroy m) in
  let r' := xdr_run_results H cs m in
  fst r = fst r'
  /\ m_xdrs (snd r) = m_xdrs (snd r')
  /\ io_visible (m_io (snd r)) = io_visible (m_io (snd r')).
Proof.
  intros r r'. subst r r'. apply xdr_run_results_visible.
  - unfold xdrstdio_destroy. destruct (fflush _ _). reflexivity.
  - unfold xdrstdio_destroy.
    pose proof (fflush_keeps_visible (x_private (m_xdrs m)) (m_io m)) as E.
    destruct (fflush _ _) as [r io]. exact E.
Qed.

Lemma use_after_destroy_example :
  let m := xdrstdio_destroy (update_stream 1 [x00; x00; x00; x2a] 0) in
  fst (xdr_run_results LE_LP64
         [XDR_GETLONG 0; XDR_PUTLONG 7; XDR_GETPOS] m)
  = [ret_long TRUE 42; ret_bool TRUE; ret_pos 8].
Proof. vm_compute. reflexivity. Qed.
